(** * design-extractor-server: the /analyze handler of [server.js]

    A shallow embedding of the extraction script that [server.js] runs in
    the page ([page.evaluate]), of the classifier stage that follows it and
    of the request handler around both, with the properties stated in the
    specification.

    The script is a pure function of the rendered document, a tree of
    elements with the values the browser serves for them.  The handler is
    written in a small monad that records every call to the outside (the
    browser, the page, the two client libraries) and lets each of them
    return or throw as a [World] says; [try]/[catch]/[finally] are
    combinators of that monad.

    Conventions of the embedding.
    - A JavaScript string is a [string]; one [ascii] stands for one UTF-16
      code unit, so the model covers strings of code units below 256.
    - A JavaScript number is a [Z].  The only arithmetic in the source is
      on the results of [parseInt] over digit runs; doubles are exact on
      integers below 2^53, which is where the model and the engine
      coincide.  [<<] works on the 32-bit two's complement image of its
      operand and is written out with its wrap-around.
    - [null]/[undefined] results are [None].
    - A thrown value is [undefined] or [null] ([Nullish]) or a value that
      has properties ([Thrown]).  The browser and page calls and
      [JSON.parse] throw error objects; the import and the calls of the
      backends' client libraries may throw any value. *)

From Stdlib Require Import String Ascii List ZArith Lia Bool Arith Permutation Sorted.
Import ListNotations.
Local Open Scope string_scope.
Local Open Scope Z_scope.
Local Open Scope list_scope.

(** ** JavaScript strings *)

Module JsString.

Definition code (c : ascii) : nat := nat_of_ascii c.

Definition is_digit (c : ascii) : bool :=
  ((48 <=? code c) && (code c <=? 57))%nat.

(** [s.startsWith(p)] *)
Definition startsWith (p s : string) : bool := String.prefix p s.

(** [s.includes(p)] *)
Fixpoint includes (p s : string) : bool :=
  String.prefix p s ||
  match s with
  | EmptyString => false
  | String _ s' => includes p s'
  end.

(** [s.slice(1)] *)
Definition slice1 (s : string) : string :=
  match s with
  | EmptyString => EmptyString
  | String _ s' => s'
  end.

(** [s.slice(0, n)] for a non-negative [n]. *)
Fixpoint slice0 (n : nat) (s : string) : string :=
  match n, s with
  | O, _ => EmptyString
  | _, EmptyString => EmptyString
  | S n', String c s' => String c (slice0 n' s')
  end.

Fixpoint map_chars (f : ascii -> ascii) (s : string) : string :=
  match s with
  | EmptyString => EmptyString
  | String c s' => String (f c) (map_chars f s')
  end.

Fixpoint filter_chars (f : ascii -> bool) (s : string) : string :=
  match s with
  | EmptyString => EmptyString
  | String c s' => if f c then String c (filter_chars f s') else filter_chars f s'
  end.

Fixpoint InStr (c : ascii) (s : string) : Prop :=
  match s with
  | EmptyString => False
  | String d s' => d = c \/ InStr c s'
  end.

(** [toUpperCase] on the ASCII letters.  The source applies it to the
    output of [toString(16)] only, which is ASCII. *)
Definition upper_char (c : ascii) : ascii :=
  if ((97 <=? code c) && (code c <=? 122))%nat
  then ascii_of_nat (code c - 32) else c.

Definition toUpperCase : string -> string := map_chars upper_char.

(** [toLowerCase] on code units below 256: the ASCII capitals and the
    Latin-1 capitals U+00C0..U+00DE except the multiplication sign. *)
Definition lower_char (c : ascii) : ascii :=
  let n := code c in
  if ((65 <=? n) && (n <=? 90))%nat then ascii_of_nat (n + 32)
  else if ((192 <=? n) && (n <=? 222) && negb (n =? 215))%nat
       then ascii_of_nat (n + 32)
       else c.

Definition toLowerCase : string -> string := map_chars lower_char.

(** [s.match(/\d+/g)]: the maximal runs of ASCII digits, left to right;
    [None] (JavaScript [null]) when there is none.  [cur] is the run
    being read, reversed. *)
Fixpoint rev_string (s acc : string) : string :=
  match s with
  | EmptyString => acc
  | String c s' => rev_string s' (String c acc)
  end.

Definition close_run (cur : string) (k : list string) : list string :=
  match cur with
  | EmptyString => k
  | _ => rev_string cur EmptyString :: k
  end.

Fixpoint digit_runs (cur s : string) : list string :=
  match s with
  | EmptyString => close_run cur []
  | String c s' =>
      if is_digit c then digit_runs (String c cur) s'
      else close_run cur (digit_runs EmptyString s')
  end.

Definition match_digits (s : string) : option (list string) :=
  match digit_runs EmptyString s with
  | [] => None
  | l => Some l
  end.

(** [parseInt] on a run of digits: its decimal value (exact at any
    length; the engine rounds above 2^53). *)
Fixpoint parse_digits (acc : Z) (s : string) : Z :=
  match s with
  | EmptyString => acc
  | String c s' => parse_digits (10 * acc + (Z.of_nat (code c) - 48)) s'
  end.

Definition parseInt (s : string) : Z := parse_digits 0 s.

(** [s.split(sep)[0]] for a one-character separator: the text before
    the first separator, the whole string when there is none.  [splitOn]
    is the whole array. *)
Fixpoint splitOn (sep : ascii) (s : string) : list string :=
  match s with
  | EmptyString => [EmptyString]
  | String c s' =>
      if Ascii.eqb c sep then EmptyString :: splitOn sep s'
      else match splitOn sep s' with
           | [] => [String c EmptyString]
           | w :: ws => String c w :: ws
           end
  end.

Definition nth0 (l : list string) : option string := hd_error l.

(** [s.replace(/pat/g, '')] for a literal, non-empty pattern: scan from
    the left, drop each occurrence, continue after it. *)
Fixpoint drop (n : nat) (s : string) : string :=
  match n, s with
  | O, _ => s
  | S n', String _ s' => drop n' s'
  | S _, EmptyString => EmptyString
  end.

Fixpoint removeAll (fuel : nat) (pat s : string) : string :=
  match fuel with
  | O => s
  | S fuel' =>
      match s with
      | EmptyString => EmptyString
      | String c s' =>
          if String.prefix pat s
          then removeAll fuel' pat (drop (String.length pat) s)
          else String c (removeAll fuel' pat s')
      end
  end.

Definition replaceAllEmpty (pat s : string) : string :=
  removeAll (String.length s) pat s.

(** [s.trim()]: white space below U+0100 is TAB, LF, VT, FF, CR, SPACE
    and NBSP. *)
Definition is_space (c : ascii) : bool :=
  let n := code c in
  ((9 <=? n) && (n <=? 13) || (n =? 32) || (n =? 160))%nat.

Fixpoint trimStart (s : string) : string :=
  match s with
  | EmptyString => EmptyString
  | String c s' => if is_space c then trimStart s' else s
  end.

Fixpoint trimEnd (s : string) : string :=
  match s with
  | EmptyString => EmptyString
  | String c s' =>
      match trimEnd s' with
      | EmptyString => if is_space c then EmptyString else String c EmptyString
      | t => String c t
      end
  end.

Definition trim (s : string) : string := trimEnd (trimStart s).

End JsString.

(** ** JavaScript numbers used by the colour conversion *)

Module JsNum.

(** [ToInt32]: the value modulo 2^32, read as a signed 32-bit integer. *)
Definition to_int32 (z : Z) : Z := (z + 2 ^ 31) mod 2 ^ 32 - 2 ^ 31.

(** [a << n] for a literal count [0 <= n < 32]. *)
Definition shl (a n : Z) : Z := to_int32 (Z.shiftl (to_int32 a) n).

Definition hex_digit (d : Z) : ascii :=
  if d <? 10 then ascii_of_nat (Z.to_nat d + 48)
  else ascii_of_nat (Z.to_nat d + 87).

(** Digits of a non-negative integer in radix 16, most significant
    first; [fuel] bounds the number of digits. *)
Fixpoint hex_digits (fuel : nat) (n : Z) (acc : string) : string :=
  match fuel with
  | O => acc
  | S fuel' =>
      let acc' := String (hex_digit (n mod 16)) acc in
      if n / 16 =? 0 then acc' else hex_digits fuel' (n / 16) acc'
  end.

Definition hex_of_nonneg (n : Z) : string :=
  hex_digits (S (Z.to_nat (Z.log2 n))) n EmptyString.

(** [n.toString(16)] on an integer. *)
Definition toString16 (n : Z) : string :=
  if n <? 0 then String "-" (hex_of_nonneg (- n)) else hex_of_nonneg n.

End JsNum.

Import JsString JsNum.

(** ** Colour conversion: [rgbToHex] (server.js, lines 52-58) *)

Definition rgbToHex (rgb : string) : option string :=
  if String.eqb rgb "" then None
  else if startsWith "#" rgb then Some rgb
  else
    match match_digits rgb with
    | Some (r0 :: r1 :: r2 :: _) =>
        Some (String "#"
                (toUpperCase
                   (slice1 (toString16
                      (shl 1 24 + shl (parseInt r0) 16 + shl (parseInt r1) 8
                       + parseInt r2)))))
    | _ => None
    end.

(** ** The rendered page: elements, computed styles, selectors *)

Module Dom.

(** The properties of [window.getComputedStyle(e)] that the script reads. *)
Record Style : Type := mkStyle {
  backgroundColor : string;
  color : string;
  fill : string;
  stroke : string;
  fontFamily : string
}.

(** An element of the snapshot.  [resolvedSrc] and [resolvedHref] are the
    values of the [src] and [href] IDL properties (resolved locators, the
    empty string when the attribute is absent); [innerText] and
    [outerHTML] are the values the browser serves for these properties. *)
#[local] Unset Elimination Schemes.
Inductive Element : Type := mkElement {
  localName : string;
  attributes : list (string * string);
  computedStyle : Style;
  resolvedSrc : string;
  resolvedHref : string;
  innerText : string;
  outerHTML : string;
  children : list Element
}.
#[local] Set Elimination Schemes.

Fixpoint assoc (k : string) (l : list (string * string)) : option string :=
  match l with
  | [] => None
  | (k', v) :: l' => if String.eqb k' k then Some v else assoc k l'
  end.

Definition getAttribute (e : Element) (a : string) : option string :=
  assoc a (attributes e).

(** A reflecting IDL property ([className], [content], [alt]): the
    attribute's value, the empty string when it is absent. *)
Definition reflect (e : Element) (a : string) : string :=
  match getAttribute e a with
  | Some v => v
  | None => EmptyString
  end.

Definition className (e : Element) : string := reflect e "class".
Definition content (e : Element) : string := reflect e "content".
Definition alt (e : Element) : string := reflect e "alt".

(** *** Selectors

    The selectors of the script are lists of complex selectors with at
    most one descendant combinator, over type, class and attribute
    tests. *)
Inductive Simple : Type :=
| Tag (t : string)               (* t          *)
| Class (c : string)             (* .c         *)
| AttrEq (a v : string)          (* [a="v"]    *)
| AttrSub (a v : string).        (* [a*="v"]   *)

Definition Compound : Type := list Simple.

Inductive Complex : Type :=
| Subject (c : Compound)            (* c      *)
| Descendant (a c : Compound).      (* a c    *)

Definition Selector : Type := list Complex.

Definition ascii_lower (c : ascii) : ascii :=
  let n := code c in
  if ((65 <=? n) && (n <=? 90))%nat then ascii_of_nat (n + 32) else c.

Definition eqb_ci (a b : string) : bool :=
  String.eqb (map_chars ascii_lower a) (map_chars ascii_lower b).

(** The white space that separates class names: TAB, LF, FF, CR, SPACE. *)
Definition is_token_sep (c : ascii) : bool :=
  let n := code c in
  ((n =? 9) || (n =? 10) || (n =? 12) || (n =? 13) || (n =? 32))%nat.

Fixpoint tokens_from (cur s : string) : list string :=
  match s with
  | EmptyString => close_run cur []
  | String c s' =>
      if is_token_sep c then close_run cur (tokens_from EmptyString s')
      else tokens_from (String c cur) s'
  end.

Definition classList (e : Element) : list string :=
  tokens_from EmptyString (className e).

(** Attributes whose values HTML compares without regard to ASCII case
    in attribute selectors; of the attributes the script selects on
    ([name], [property], [rel], [href], [class]) only [rel] is one. *)
Definition case_insensitive_attribute (a : string) : bool := String.eqb a "rel".

(** [quirks] is the document's quirks mode, in which class selectors
    ignore ASCII case. *)
Definition matches_simple (quirks : bool) (s : Simple) (e : Element) : bool :=
  match s with
  | Tag t => String.eqb (localName e) t
  | Class c =>
      existsb (fun k => if quirks then eqb_ci k c else String.eqb k c)
              (classList e)
  | AttrEq a v =>
      match getAttribute e a with
      | Some x => if case_insensitive_attribute a then eqb_ci x v
                  else String.eqb x v
      | None => false
      end
  | AttrSub a v =>
      match getAttribute e a with
      | Some x => negb (String.eqb v "") && includes v x
      | None => false
      end
  end.

Definition matches_compound (quirks : bool) (c : Compound) (e : Element) : bool :=
  forallb (fun s => matches_simple quirks s e) c.

(** *** Nodes: an element at its place in the tree

    [path] lists the child indices from the element up to the root (the
    nearest first) and is the element's identity; [ancestors] are the
    elements above it, the parent first. *)
Record Node : Type := mkNode {
  path : list nat;
  ancestors : list Element;
  element : Element
}.

Definition matches_complex (quirks : bool) (x : Complex) (n : Node) : bool :=
  match x with
  | Subject c => matches_compound quirks c (element n)
  | Descendant a c =>
      matches_compound quirks c (element n)
      && existsb (matches_compound quirks a) (ancestors n)
  end.

Definition matches (quirks : bool) (sel : Selector) (n : Node) : bool :=
  existsb (fun x => matches_complex quirks x n) sel.

(** The element and its descendants in document order. *)
Fixpoint walk (p : list nat) (anc : list Element) (e : Element) {struct e}
  : list Node :=
  mkNode p anc e ::
  match e with
  | mkElement _ _ _ _ _ _ _ kids =>
      (fix walk_children (i : nat) (l : list Element) {struct l} : list Node :=
         match l with
         | [] => []
         | c :: l' => walk (i :: p) (e :: anc) c ++ walk_children (S i) l'
         end) O kids
  end.

Definition subtree (n : Node) : list Node :=
  walk (path n) (ancestors n) (element n).

Definition descendants (n : Node) : list Node := tl (subtree n).

Record Document : Type := mkDocument {
  documentElement : option Element;
  origin : string;              (* window.location.origin *)
  quirksMode : bool
}.

Definition nodes (d : Document) : list Node :=
  match documentElement d with
  | Some r => walk [] [] r
  | None => []
  end.

(** [document.querySelectorAll(sel)], [document.querySelector(sel)] *)
Definition querySelectorAll (d : Document) (sel : Selector) : list Node :=
  filter (matches (quirksMode d) sel) (nodes d).

Definition querySelector (d : Document) (sel : Selector) : option Node :=
  hd_error (querySelectorAll d sel).

(** [e.querySelectorAll(sel)], [e.querySelector(sel)]: the descendants
    of [e] that match [sel]; the selector is matched against the whole
    document, so an ancestor test may be met above [e]. *)
Definition querySelectorAllIn (d : Document) (n : Node) (sel : Selector)
  : list Node :=
  filter (matches (quirksMode d) sel) (descendants n).

Definition querySelectorIn (d : Document) (n : Node) (sel : Selector)
  : option Node :=
  hd_error (querySelectorAllIn d n sel).

(** [document.body]: the first [body] or [frameset] child of the [html]
    root element, or null. *)
Fixpoint first_body (i : nat) (root : Element) (l : list Element) : option Node :=
  match l with
  | [] => None
  | c :: l' =>
      if String.eqb (localName c) "body" || String.eqb (localName c) "frameset"
      then Some (mkNode [i] [root] c)
      else first_body (S i) root l'
  end.

Definition body (d : Document) : option Node :=
  match documentElement d with
  | Some r =>
      if String.eqb (localName r) "html" then first_body O r (children r)
      else None
  | None => None
  end.

Definition styleOf (n : Node) : Style := computedStyle (element n).

End Dom.

Import Dom.

(** ** [window.btoa] on strings of code units below 256 *)

Module Base64.

Definition alphabet : string :=
  "ABCDEFGHIJKLMNOPQRSTUVWXYZabcdefghijklmnopqrstuvwxyz0123456789+/".

Definition sextet (n : nat) : ascii :=
  match String.get n alphabet with
  | Some c => c
  | None => "="%char
  end.

Fixpoint encode (l : list nat) : string :=
  match l with
  | [] => EmptyString
  | [a] =>
      String (sextet (a / 4))
        (String (sextet (a mod 4 * 16)) "==")
  | [a; b] =>
      String (sextet (a / 4))
        (String (sextet (a mod 4 * 16 + b / 16))
           (String (sextet (b mod 16 * 4)) "="))
  | a :: b :: c :: l' =>
      String (sextet (a / 4))
        (String (sextet (a mod 4 * 16 + b / 16))
           (String (sextet (b mod 16 * 4 + c / 64))
              (String (sextet (c mod 64)) (encode l'))))
  end%nat.

(** [window.btoa(s)] on a string of code units below 256, which is
    every [string] here; on others the browser throws. *)
Definition btoa (s : string) : string :=
  encode (List.map nat_of_ascii (list_ascii_of_string s)).

End Base64.

(** ** The extraction script (server.js, lines 50-183) *)

Module PageScript.

(** *** 1. Colours *)

(** One call [addColor(c, weight)], with the node whose property is
    read. *)
Record Observation : Type := mkObservation {
  source : Node;
  colorText : string;
  weight : Z
}.

(** [colorCounts]: an object used as a map from hex text to weight.
    Every key starts with [#], so none is an array index and
    [Object.entries] lists the keys in the order of their first
    insertion: an association list, extended at its end. *)
Definition ColorCounts : Type := list (string * Z).

(** [colorCounts[hex] = (colorCounts[hex] || 0) + weight] *)
Fixpoint bump (hex : string) (w : Z) (cc : ColorCounts) : ColorCounts :=
  match cc with
  | [] => [(hex, w)]
  | (k, v) :: cc' =>
      if String.eqb k hex then (k, (if v =? 0 then 0 else v) + w) :: cc'
      else (k, v) :: bump hex w cc'
  end.

Definition rejected (hex : string) : bool :=
  String.eqb hex "#FFFFFF" || String.eqb hex "#000000"
  || String.eqb hex "#00000000".

(** The key under which [addColor(c, _)] counts, if it counts. *)
Definition accepted (c : string) : option string :=
  match rgbToHex c with
  | Some hex =>
      if negb (String.eqb hex "") && negb (rejected hex) then Some hex
      else None
  | None => None
  end.

Definition addColor (cc : ColorCounts) (c : string) (w : Z) : ColorCounts :=
  match accepted c with
  | Some hex => bump hex w cc
  | None => cc
  end.

(** meta[name="theme-color"] *)
Definition sel_themeColor : Selector :=
  [Subject [Tag "meta"; AttrEq "name" "theme-color"]].
(** header *)
Definition sel_header : Selector := [Subject [Tag "header"]].
(** nav *)
Definition sel_nav : Selector := [Subject [Tag "nav"]].
(** button, a[class*="btn"], a[class*="button"] *)
Definition sel_headerButtons : Selector :=
  [Subject [Tag "button"];
   Subject [Tag "a"; AttrSub "class" "btn"];
   Subject [Tag "a"; AttrSub "class" "button"]].
(** svg path, svg rect, svg circle, svg g, svg *)
Definition sel_headerSvgs : Selector :=
  [Descendant [Tag "svg"] [Tag "path"];
   Descendant [Tag "svg"] [Tag "rect"];
   Descendant [Tag "svg"] [Tag "circle"];
   Descendant [Tag "svg"] [Tag "g"];
   Subject [Tag "svg"]].
(** button, a[class*="btn"], .button, .btn *)
Definition sel_buttons : Selector :=
  [Subject [Tag "button"];
   Subject [Tag "a"; AttrSub "class" "btn"];
   Subject [Class "button"];
   Subject [Class "btn"]].

(** A. *)
Definition themeColor (d : Document) : option Node :=
  querySelector d sel_themeColor.

Definition themeObservations (d : Document) : list Observation :=
  match themeColor d with
  | Some m => [mkObservation m (content (element m)) 20]
  | None => []
  end.

(** B. [document.querySelector('header') || document.querySelector('nav')] *)
Definition header (d : Document) : option Node :=
  match querySelector d sel_header with
  | Some h => Some h
  | None => querySelector d sel_nav
  end.

Definition headerButtons (d : Document) : list Node :=
  match header d with
  | Some h => querySelectorAllIn d h sel_headerButtons
  | None => []
  end.

Definition transparent : string := "rgba(0, 0, 0, 0)".

Definition buttonObservations (btn : Node) : list Observation :=
  let style := styleOf btn in
  mkObservation btn (backgroundColor style) 10 ::
  (if String.eqb (backgroundColor style) transparent
   then [mkObservation btn (color style) 5]
   else []).

(** C. *)
Definition headerSvgs (d : Document) : list Node :=
  match header d with
  | Some h => querySelectorAllIn d h sel_headerSvgs
  | None => []
  end.

Definition painted (v : string) : bool :=
  negb (String.eqb v "") && negb (String.eqb v "none").

Definition svgObservations (svgPart : Node) : list Observation :=
  let style := styleOf svgPart in
  (if painted (fill style) then [mkObservation svgPart (fill style) 8] else [])
  ++ (if painted (stroke style) then [mkObservation svgPart (stroke style) 8]
      else []).

Definition headerObservations (d : Document) : list Observation :=
  flat_map buttonObservations (headerButtons d)
  ++ flat_map svgObservations (headerSvgs d).

(** D. *)
Definition buttons (d : Document) : list Node := querySelectorAll d sel_buttons.

Definition documentObservations (d : Document) : list Observation :=
  List.map (fun btn => mkObservation btn (backgroundColor (styleOf btn)) 3)
           (buttons d).

(** The calls of [addColor], in the order the script makes them. *)
Definition observations (d : Document) : list Observation :=
  themeObservations d ++ headerObservations d ++ documentObservations d.

Definition count (cc : ColorCounts) (o : Observation) : ColorCounts :=
  addColor cc (colorText o) (weight o).

Definition colorCounts (d : Document) : ColorCounts :=
  fold_left count (observations d) [].

(** E. [.sort((a, b) => b[1] - a[1])]: the sort is stable, so an entry
    goes before the first one of strictly smaller weight and after the
    entries of equal weight that precede it. *)
Fixpoint insert (x : string * Z) (l : list (string * Z)) : list (string * Z) :=
  match l with
  | [] => [x]
  | y :: l' => if snd x <? snd y then y :: insert x l' else x :: y :: l'
  end.

Definition sort (l : list (string * Z)) : list (string * Z) :=
  fold_right insert [] l.

Definition sortedColors (d : Document) : list string :=
  List.map fst (firstn 8 (sort (colorCounts d))).

(** [sortedColors[0] || '#000000'] *)
Definition primaryColor (d : Document) : string :=
  match sortedColors d with
  | h :: _ => if String.eqb h "" then "#000000" else h
  | [] => "#000000"
  end.

(** *** 2. Logo *)

(** header img, nav img *)
Definition sel_headerImages : Selector :=
  [Descendant [Tag "header"] [Tag "img"]; Descendant [Tag "nav"] [Tag "img"]].
(** a[href="/"], a[href="<origin>"] *)
Definition sel_homeLinks (d : Document) : Selector :=
  [Subject [Tag "a"; AttrEq "href" "/"];
   Subject [Tag "a"; AttrEq "href" (origin d)]].
(** svg *)
Definition sel_svg : Selector := [Subject [Tag "svg"]].
(** meta[property="og:image"] *)
Definition sel_ogImage : Selector :=
  [Subject [Tag "meta"; AttrEq "property" "og:image"]].
(** link[rel="apple-touch-icon"] *)
Definition sel_appleIcon : Selector :=
  [Subject [Tag "link"; AttrEq "rel" "apple-touch-icon"]].

(** A string in a condition: the empty string is false. *)
Definition truthy (s : string) : bool := negb (String.eqb s "").

(** [!logoUrl]: [null] and the empty string are false. *)
Definition unset (logoUrl : option string) : bool :=
  match logoUrl with
  | Some u => negb (truthy u)
  | None => true
  end.

Definition mentions_logo (s : string) : bool :=
  truthy s && includes "logo" (toLowerCase s).

Definition is_logo_image (img : Node) : bool :=
  mentions_logo (className (element img))
  || mentions_logo (resolvedSrc (element img))
  || mentions_logo (alt (element img)).

Definition logoImg (d : Document) : option Node :=
  find is_logo_image (querySelectorAll d sel_headerImages).

Definition has_svg (d : Document) (link : Node) : bool :=
  match querySelectorIn d link sel_svg with
  | Some _ => true
  | None => false
  end.

Definition logoLink (d : Document) : option Node :=
  find (has_svg d) (querySelectorAll d (sel_homeLinks d)).

Definition dataUri (svg : Node) : string :=
  ("data:image/svg+xml;base64," ++ Base64.btoa (outerHTML (element svg)))%string.

(** What each strategy would assign to [logoUrl]; [None] when it
    assigns nothing. *)
Definition strategy1 (d : Document) : option string :=
  option_map (fun img => resolvedSrc (element img)) (logoImg d).

Definition strategy2 (d : Document) : option string :=
  match logoLink d with
  | Some link => option_map dataUri (querySelectorIn d link sel_svg)
  | None => None
  end.

Definition strategy3 (d : Document) : option string :=
  option_map (fun m => content (element m)) (querySelector d sel_ogImage).

Definition strategy4 (d : Document) : option string :=
  option_map (fun l => resolvedHref (element l)) (querySelector d sel_appleIcon).

(** [if (x) logoUrl = x.y]: an assignment when the strategy has a
    result, the old value otherwise. *)
Definition assign (logoUrl result : option string) : option string :=
  match result with
  | Some u => Some u
  | None => logoUrl
  end.

(** [if (!logoUrl) { ... }] *)
Definition unless_set (logoUrl : option string) (result : option string)
  : option string :=
  if unset logoUrl then assign logoUrl result else logoUrl.

Definition logoUrl (d : Document) : option string :=
  let logoUrl := None in
  let logoUrl := assign logoUrl (strategy1 d) in
  let logoUrl := unless_set logoUrl (strategy2 d) in
  let logoUrl := unless_set logoUrl (strategy3 d) in
  let logoUrl := unless_set logoUrl (strategy4 d) in
  logoUrl.

(** *** 3. Typography *)

Definition is_quote (c : ascii) : bool :=
  ((code c =? 39) || (code c =? 34))%nat.

(** [fontFamily.split(',')[0]] with every single-quote and double-quote
    character (code units 39 and 34) replaced by nothing. *)
Definition firstFont (fontFamily : string) : string :=
  filter_chars (fun c => negb (is_quote c))
    (match nth0 (splitOn ","%char fontFamily) with
     | Some f => f
     | None => EmptyString
     end).

(** h1 *)
Definition sel_h1 : Selector := [Subject [Tag "h1"]].
(** meta[name="description"] *)
Definition sel_description : Selector :=
  [Subject [Tag "meta"; AttrEq "name" "description"]].

Definition h1 (d : Document) : option Node := querySelector d sel_h1.

Definition bodyFn (b : Node) : string := firstFont (fontFamily (styleOf b)).

Definition headingFn (d : Document) (b : Node) : string :=
  match h1 d with
  | Some h => firstFont (fontFamily (styleOf h))
  | None => bodyFn b
  end.

(** *** 4. Content *)

Definition heroText (d : Document) : string :=
  match h1 d with
  | Some h => innerText (element h)
  | None => EmptyString
  end.

(** [document.querySelector('meta[name="description"]')?.content || ''] *)
Definition metaDesc (d : Document) : string :=
  match querySelector d sel_description with
  | Some m => if truthy (content (element m)) then content (element m)
              else EmptyString
  | None => EmptyString
  end.

Definition bodyText (b : Node) : string := slice0 500 (innerText (element b)).

Definition newline : string := String (ascii_of_nat 10) EmptyString.

Definition rawText (d : Document) (b : Node) : string :=
  ("Heading: " ++ heroText d ++ newline
   ++ "Description: " ++ metaDesc d ++ newline
   ++ "Content: " ++ bodyText b)%string.

(** *** The value returned to the server *)

Record Colors : Type := mkColors {
  primary : string;
  background : option string;
  palette : list string
}.

Record Typography : Type := mkTypography {
  headings : string;
  body_font : string            (* the property [body] *)
}.

Record Data : Type := mkData {
  colors : Colors;
  typography : Typography;
  logo : option string;
  data_rawText : string         (* the property [rawText] *)
}.

(** [window.getComputedStyle(document.body)] and [document.body.innerText]
    raise a TypeError when the document has no body: the script then
    returns nothing. *)
Definition extract (d : Document) : option Data :=
  match body d with
  | Some b =>
      Some {| colors := {| primary := primaryColor d;
                           background := rgbToHex (backgroundColor (styleOf b));
                           palette := sortedColors d |};
              typography := {| headings := headingFn d b; body_font := bodyFn b |};
              logo := logoUrl d;
              data_rawText := rawText d b |}
  | None => None
  end.

End PageScript.

(** ** The request handler and the classifier stage (server.js, lines 16-267) *)

Module Server.

Import PageScript.

(** A parsed JSON value: what [JSON.parse] returns and what the request
    body holds.  Numbers are the integers of the model. *)
#[local] Unset Elimination Schemes.
Inductive Json : Type :=
| JNull
| JBool (b : bool)
| JNum (n : Z)
| JStr (s : string)
| JArr (items : list Json)
| JObj (fields : list (string * Json)).
#[local] Set Elimination Schemes.

(** A value in a condition. *)
Definition js_truthy (v : option Json) : bool :=
  match v with
  | None | Some JNull => false
  | Some (JBool b) => b
  | Some (JNum n) => negb (n =? 0)
  | Some (JStr s) => truthy s
  | Some (JArr _) | Some (JObj _) => true
  end.

(** A thrown value that has properties: an error object, or a
    primitive value other than [undefined] and [null] (a string, a
    number, ...).  [message] is its [message] property ([None] when it
    is undefined) and [text] is what [toString()] returns. *)
Record Thrown : Type := mkThrown {
  message : option string;
  text : string
}.

(** Any value can be thrown.  [undefined] and [null] have no
    properties: reading [message] from them throws in turn. *)
Inductive Nullish : Type := Undefined | Null.

Inductive Raised : Type :=
| RaisedNullish (n : Nullish)
| RaisedObject (e : Thrown).

(** The result of a call that throws error objects only: the browser
    and page calls, [JSON.parse]. *)
Inductive Result (A : Type) : Type :=
| Ok (a : A)
| Throw (e : Thrown).
Arguments Ok {A} a.
Arguments Throw {A} e.

(** The result of a computation that may throw any value: the client
    libraries of the backends, and the handler's own blocks. *)
Inductive Completion (A : Type) : Type :=
| Returns (a : A)
| Raises (v : Raised).
Arguments Returns {A} a.
Arguments Raises {A} v.

Definition completion {A} (r : Result A) : Completion A :=
  match r with
  | Ok a => Returns a
  | Throw e => Raises (RaisedObject e)
  end.

Inductive Backend : Type := Gemini | OpenAI.

(** Everything outside the handler: the environment, the browser, the
    page, the two client libraries and [JSON.parse]. *)
Record World : Type := mkWorld {
  GOOGLE_API_KEY : option string;       (* process.env.GOOGLE_API_KEY *)
  OPENAI_API_KEY : option string;       (* process.env.OPENAI_API_KEY *)
  launch : Result unit;                 (* puppeteer.launch(...) *)
  newPage : Result unit;                (* browser.newPage() *)
  setUserAgent : Result unit;           (* page.setUserAgent(...) *)
  goto : option Json -> Result unit;    (* page.goto(url, ...) *)
  evaluate : Result Document;           (* the page that page.evaluate runs in *)
  scriptFailure : Thrown;               (* what page.evaluate throws when the script throws *)
  importModule : Backend -> Completion unit;
  (* new GoogleGenerativeAI(key), getGenerativeModel(...),
     model.generateContent(prompt), result.response, response.text() *)
  generateContent : string -> string -> Completion string;
  (* new OpenAI({ apiKey }), openai.chat.completions.create(...),
     choices[0].message.content; [None] is a null content *)
  createCompletion : string -> string -> string -> Completion (option string);
  JSON_parse : string -> Result Json;
  (* the TypeError of reading a property of undefined or of null *)
  typeError : Nullish -> Thrown;
  close : Result unit                   (* browser.close() *)
}.

(** The body of a response: [{ error, details }] or [{ ...data, vibe }]. *)
Inductive Body : Type :=
| ErrorBody (error : string) (details : option string)
| Payload (data : Data) (vibe : Json).

(** What the handler does to the outside, in order. *)
Inductive Event : Type :=
| CallLaunch
| CallNewPage
| CallSetUserAgent
| CallGoto (url : option Json)
| CallEvaluate
| CallImport (b : Backend)
| CallBackend (b : Backend) (prompt : string)
| CallClose
| Respond (status : Z) (body : Body).

(** The handler's state: the calls made so far and the variable
    [browser] (set or undefined). *)
Record State : Type := mkState {
  trace : list Event;
  browser : bool
}.

Definition M (A : Type) : Type := State -> Completion A * State.

Definition ret {A} (a : A) : M A := fun s => (Returns a, s).

Definition raise {A} (v : Raised) : M A := fun s => (Raises v, s).

Definition bind {A B} (m : M A) (k : A -> M B) : M B :=
  fun s =>
    match m s with
    | (Returns a, s') => k a s'
    | (Raises v, s') => (Raises v, s')
    end.

Declare Scope js_scope.
Delimit Scope js_scope with js.
Notation "x <- m ;; k" := (bind m (fun x => k))
  (at level 61, m at next level, right associativity) : js_scope.
Notation "m ;; k" := (bind m (fun _ => k))
  (at level 61, right associativity) : js_scope.
Local Open Scope js_scope.

Definition emit (ev : Event) : M unit :=
  fun s => (Returns tt, {| trace := trace s ++ [ev]; browser := browser s |}).

(** A call to the outside: it is recorded, then returns or throws. *)
Definition call {A} (ev : Event) (r : Completion A) : M A :=
  fun s => (r, {| trace := trace s ++ [ev]; browser := browser s |}).

(** A computation inside the runtime ([JSON.parse], the script's own
    result): nothing is recorded. *)
Definition returning {A} (r : Result A) : M A := fun s => (completion r, s).

Definition set_browser : M unit :=
  fun s => (Returns tt, {| trace := trace s; browser := true |}).

Definition get_browser : M bool := fun s => (Returns (browser s), s).

(** [try { m } catch (e) { h e }]: the handler receives whatever was
    thrown, and what it throws itself leaves the statement. *)
Definition try_catch {A} (m : M A) (h : Raised -> M A) : M A :=
  fun s =>
    match m s with
    | (Returns a, s') => (Returns a, s')
    | (Raises v, s') => h v s'
    end.

(** [try { m } finally { f }] *)
Definition try_finally {A} (m : M A) (f : M unit) : M A :=
  fun s =>
    match m s with
    | (r, s') =>
        match f s' with
        | (Returns _, s'') => (r, s'')
        | (Raises v, s'') => (Raises v, s'')
        end
    end.

(** *** 2. Vibe check *)

Definition dq : string := String (ascii_of_nat 34) EmptyString.

Definition geminiPrompt (rawText : string) : string :=
  (
   "Analyze this website content and return a JSON object with: " ++
   newline ++ "            1. " ++ dq ++ "tone" ++ dq ++
   " (2 words max, e.g. " ++ dq ++ "Minimalist Tech" ++ dq ++ ", " ++ dq ++
   "Playful Modern" ++ dq ++ "), " ++ newline ++ "            2. " ++ dq ++
   "audience" ++ dq ++ " (2 words max, e.g. " ++ dq ++ "Designers" ++ dq ++
   ", " ++ dq ++ "Developers" ++ dq ++ "), " ++ newline ++
   "            3. " ++ dq ++ "vibe" ++ dq ++
   " (1 short sentence describing the visual style, UI aesthetics, and design vibe. e.g., " ++
   dq ++ "Corporate Memphis with glassmorphism" ++ dq ++ ")." ++ newline ++
   "            " ++ newline ++ "            Content: "
   ++ rawText)%string.

Definition openaiSystem : string :=
  "You are a design expert focused on UI/UX aesthetics.".

Definition openaiUser (rawText : string) : string :=
  (
   "Analyze the vibe of this text. Return JSON: { " ++ dq ++ "tone" ++
   dq ++ ": " ++ dq ++ "..." ++ dq ++ ", " ++ dq ++ "audience" ++ dq ++
   ": " ++ dq ++ "..." ++ dq ++ ", " ++ dq ++ "vibe" ++ dq ++ ": " ++ dq ++
   "..." ++ dq ++ " }. " ++ newline ++
   "                        Summary instructions: Describe the visual style, UI aesthetics, and design vibe. Do NOT describe what the company sells/offers, focus ONLY on the look and feel." ++
   newline ++ "                        Text: "
   ++ rawText)%string.

Definition fence : string := "```".
Definition fence_json : string := "```json".

(** [text.replace(/```json/g, '').replace(/```/g, '').trim()] *)
Definition clean (text : string) : string :=
  trim (replaceAllEmpty fence (replaceAllEmpty fence_json text)).

Definition vibeObject (tone audience vibe : string) : Json :=
  JObj [("tone", JStr tone); ("audience", JStr audience); ("vibe", JStr vibe)].

(** The value [vibeAnalysis] is declared with; every path below
    assigns it again. *)
Definition initialVibe : Json :=
  vibeObject "Analyzing..." "General" "Could not generate analysis.".

Definition demoVibe : Json :=
  vibeObject "Demo Mode" "No API Key"
             "Key missing. Check .env file and restart server.".

(** [e.message || e.toString()], for an [e] that has properties. *)
Definition describe (e : Thrown) : string :=
  match message e with
  | Some m => if truthy m then m else text e
  | None => text e
  end.

Definition errorVibe (e : Thrown) : Json :=
  vibeObject "Error" "Analysis Failed" ("Error: " ++ describe e)%string.

Definition present (key : option string) : bool :=
  match key with
  | Some k => truthy k
  | None => false
  end.

Definition keyText (key : option string) : string :=
  match key with
  | Some k => k
  | None => EmptyString
  end.

Definition viaGemini (w : World) (rawText : string) : M Json :=
  call (CallImport Gemini) (importModule w Gemini) ;;
  let prompt := geminiPrompt rawText in
  text <- call (CallBackend Gemini prompt)
               (generateContent w (keyText (GOOGLE_API_KEY w)) prompt) ;;
  let cleaned := clean text in
  returning (JSON_parse w cleaned).

Definition viaOpenAI (w : World) (rawText : string) : M Json :=
  call (CallImport OpenAI) (importModule w OpenAI) ;;
  let user := openaiUser rawText in
  content <- call (CallBackend OpenAI user)
                  (createCompletion w (keyText (OPENAI_API_KEY w))
                                    openaiSystem user) ;;
  returning (JSON_parse w (match content with
                            | Some c => c
                            | None => "null"
                            end)).

(** Lines 186-257: the value of [vibeAnalysis] after the inner
    [try]/[catch].  The [catch] block reads [e.message] (line 255): on
    a thrown [undefined] or [null] that read throws a TypeError, which
    leaves the block. *)
Definition vibeAnalysis (w : World) (rawText : string) : M Json :=
  try_catch
    (if present (GOOGLE_API_KEY w) then viaGemini w rawText
     else if present (OPENAI_API_KEY w) then viaOpenAI w rawText
     else ret demoVibe)
    (fun e =>
       match e with
       | RaisedObject e => ret (errorVibe e)
       | RaisedNullish n => raise (RaisedObject (typeError w n))
       end).

(** *** The handler *)

Record Request : Type := mkRequest {
  url : option Json                     (* req.body.url *)
}.

Definition runScript (w : World) : M Data :=
  d <- call CallEvaluate (completion (evaluate w)) ;;
  match extract d with
  | Some data => ret data
  | None => returning (Throw (scriptFailure w))
  end.

Definition analyze (w : World) (req : Request) : M unit :=
  if negb (js_truthy (url req))
  then emit (Respond 400 (ErrorBody "URL is required" None))
  else
    try_finally
      (try_catch
         (call CallLaunch (completion (launch w)) ;;
          set_browser ;;
          call CallNewPage (completion (newPage w)) ;;
          call CallSetUserAgent (completion (setUserAgent w)) ;;
          call (CallGoto (url req)) (completion (goto w (url req))) ;;
          data <- runScript w ;;
          vibe <- vibeAnalysis w (data_rawText data) ;;
          emit (Respond 200 (Payload data vibe)))
         (fun error =>
            match error with
            | RaisedObject e =>
                emit (Respond 500 (ErrorBody "Failed to analyze URL" (message e)))
            | RaisedNullish n => raise (RaisedObject (typeError w n))
            end))
      (b <- get_browser ;;
       if b then call CallClose (completion (close w)) else ret tt).

Definition initial : State := {| trace := []; browser := false |}.

(** The calls and responses of one request. *)
Definition run (w : World) (req : Request) : list Event :=
  trace (snd (analyze w req initial)).

End Server.

(** * The vocabulary of the properties *)

Section Vocabulary.

Import PageScript Server.

Definition is_upper_hex (c : ascii) : bool :=
  let n := code c in
  ((48 <=? n) && (n <=? 57) || (65 <=? n) && (n <=? 70))%nat.

(** [#] followed by exactly six of the digits 0-9, A-F. *)
Definition canonical (h : string) : bool :=
  match h with
  | String "#" (String a (String b (String c (String d (String e
      (String f EmptyString)))))) => forallb is_upper_hex [a; b; c; d; e; f]
  | _ => false
  end.

(** The upper-case hexadecimal digit of [0 <= d < 16], and the two digits
    of a byte. *)
Definition HEX (d : Z) : ascii := upper_char (hex_digit d).

Definition hex2 (n : Z) : string :=
  String (HEX (n / 16)) (String (HEX (n mod 16)) EmptyString).

Definition is_byte (z : Z) : Prop := 0 <= z <= 255.

Definition keys (cc : ColorCounts) : list string := List.map fst cc.

(** [colorCounts[k]], 0 for a key that is not there. *)
Fixpoint weight_of (k : string) (cc : ColorCounts) : Z :=
  match cc with
  | [] => 0
  | (k', v) :: cc' => if String.eqb k' k then v else weight_of k cc'
  end.

(** What one call of [addColor] adds to the weight of the key [k]. *)
Definition share (k : string) (c : string) (w : Z) : Z :=
  match accepted c with
  | Some h => if String.eqb h k then w else 0
  | None => 0
  end.

Definition total (k : string) (obs : list Observation) : Z :=
  fold_right (fun o acc => share k (colorText o) (weight o) + acc) 0 obs.

(** A key of the counts is a string that [addColor] lets through. *)
Definition admissible (k : string) : Prop :=
  k <> EmptyString /\ rejected k = false.

(** Each entry weighs at least as much as every later one. *)
Definition descending : list (string * Z) -> Prop :=
  StronglySorted (fun a b => snd b <= snd a).

(** Induction on an element with the hypothesis for each of its children. *)
Fixpoint Element_children_ind (P : Element -> Prop)
  (step : forall ln at_ st rs rh it oh kids,
      Forall P kids -> P (mkElement ln at_ st rs rh it oh kids))
  (e : Element) {struct e} : P e :=
  match e with
  | mkElement ln at_ st rs rh it oh kids =>
      step ln at_ st rs rh it oh kids
        ((fix all (l : list Element) : Forall P l :=
            match l with
            | [] => Forall_nil P
            | c :: l' => Forall_cons c (Element_children_ind P step c) (all l')
            end) kids)
  end.

(** [n] is a proper descendant of [h]: its path continues the path of
    [h]. *)
Definition inside (h n : Node) : Prop :=
  exists q, q <> [] /\ path n = q ++ path h.

Definition insideb (h n : Node) : bool :=
  let k := (length (path n) - length (path h))%nat in
  (0 <? k)%nat
  && (if list_eq_dec Nat.eq_dec (skipn k (path n)) (path h) then true else false).

(** The first element with a given name, in document order. *)
Definition first_named (t : string) (d : Document) : option Node :=
  find (fun n => String.eqb (localName (element n)) t) (nodes d).

(** How many of the colour texts are counted under the key [k]. *)
Definition hits (k : string) (texts : list string) : Z :=
  fold_right (fun t acc => share k t 1 + acc) 0 texts.

Definition themeTexts (d : Document) : list string :=
  match themeColor d with
  | Some m => [content (element m)]
  | None => []
  end.

Definition bgOf (n : Node) : string := backgroundColor (styleOf n).
Definition colorOf (n : Node) : string := color (styleOf n).
Definition fillOf (n : Node) : string := fill (styleOf n).
Definition strokeOf (n : Node) : string := stroke (styleOf n).
Definition transparent_bg (n : Node) : bool := String.eqb (bgOf n) transparent.

(** The accumulated weight of [k] by the table of sources: the theme
    colour, the header's buttons (background; text colour under a
    transparent background), the header's vector graphics (fill, stroke),
    and [doc_buttons], the buttons of the last row. *)
Definition table (d : Document) (doc_buttons : list Node) (k : string) : Z :=
  20 * hits k (themeTexts d)
  + 10 * hits k (List.map bgOf (headerButtons d))
  + 5 * hits k (List.map colorOf (filter transparent_bg (headerButtons d)))
  + 8 * hits k (filter painted (List.map fillOf (headerSvgs d)))
  + 8 * hits k (filter painted (List.map strokeOf (headerSvgs d)))
  + 3 * hits k (List.map bgOf doc_buttons).

(** The last row as the claim words it: the interactive elements outside
    the header region. *)
Definition in_region (d : Document) (n : Node) : bool :=
  match header d with
  | Some h =>
      insideb h n
      || (if list_eq_dec Nat.eq_dec (path n) (path h) then true else false)
  | None => false
  end.

Definition table_as_claimed (d : Document) (k : string) : Z :=
  table d (filter (fun n => negb (in_region d n)) (buttons d)) k.

(** [id] is the identifier of the font stack [stack]: the text before the
    first comma of the stack, all of it when it has no comma, without its
    single-quote and double-quote characters. *)
Definition font_identifier (stack id : string) : Prop :=
  exists first rest,
    stack = (first ++ rest)%string
    /\ ~ InStr ","%char first
    /\ (rest = EmptyString \/ exists r, rest = String ","%char r)
    /\ id = filter_chars (fun c => negb (is_quote c)) first.

Definition label_heading : string := "Heading: ".
Definition label_description : string := "Description: ".
Definition label_content : string := "Content: ".

(** The backend the credentials select. *)
Definition selected (w : World) : option Backend :=
  if present (GOOGLE_API_KEY w) then Some Gemini
  else if present (OPENAI_API_KEY w) then Some OpenAI
  else None.

Definition promptFor (b : Backend) (rawText : string) : string :=
  match b with
  | Gemini => geminiPrompt rawText
  | OpenAI => openaiUser rawText
  end.

(** How the attempt on a backend ends. *)
Inductive Outcome : Type :=
| ImportFails (v : Raised)
| CallFails (v : Raised)
| ParseFails (e : Thrown)
| Parsed (j : Json).

Definition parseOutcome (r : Result Json) : Outcome :=
  match r with
  | Ok j => Parsed j
  | Throw e => ParseFails e
  end.

Definition outcome (w : World) (b : Backend) (rawText : string) : Outcome :=
  match importModule w b with
  | Raises v => ImportFails v
  | Returns _ =>
      match b with
      | Gemini =>
          match generateContent w (keyText (GOOGLE_API_KEY w)) (geminiPrompt rawText) with
          | Raises v => CallFails v
          | Returns text => parseOutcome (JSON_parse w (clean text))
          end
      | OpenAI =>
          match createCompletion w (keyText (OPENAI_API_KEY w)) openaiSystem
                                 (openaiUser rawText) with
          | Raises v => CallFails v
          | Returns (Some c) => parseOutcome (JSON_parse w c)
          | Returns None => parseOutcome (JSON_parse w "null")
          end
      end
  end.


(** What the [catch] block of the stage makes of a thrown value. *)
Definition caught (w : World) (v : Raised) : Result Json :=
  match v with
  | RaisedObject e => Ok (errorVibe e)
  | RaisedNullish n => Throw (typeError w n)
  end.

(** What the stage ends with: the value of [vibeAnalysis], or what
    leaves its [catch] block; and the calls made for it. *)
Definition vibeValue (w : World) (rawText : string) : Result Json :=
  match selected w with
  | None => Ok demoVibe
  | Some b =>
      match outcome w b rawText with
      | Parsed j => Ok j
      | ImportFails v | CallFails v => caught w v
      | ParseFails e => Ok (errorVibe e)
      end
  end.

Definition vibeCalls (w : World) (rawText : string) : list Event :=
  match selected w with
  | None => []
  | Some b =>
      CallImport b ::
      match outcome w b rawText with
      | ImportFails _ => []
      | _ => [CallBackend b (promptFor b rawText)]
      end
  end.



Definition fieldText (k : string) (v : Json) : option string :=
  match v with
  | JObj fields =>
      match find (fun kv => String.eqb (fst kv) k) fields with
      | Some (_, JStr s) => Some s
      | _ => None
      end
  | _ => None
  end.

(** The rendering steps up to the script's result: what they return, and
    the calls made. *)
Definition render (w : World) (req : Request) : Result Data :=
  match launch w with
  | Throw e => Throw e
  | Ok _ =>
  match newPage w with
  | Throw e => Throw e
  | Ok _ =>
  match setUserAgent w with
  | Throw e => Throw e
  | Ok _ =>
  match goto w (url req) with
  | Throw e => Throw e
  | Ok _ =>
  match evaluate w with
  | Throw e => Throw e
  | Ok d =>
  match extract d with
  | Some data => Ok data
  | None => Throw (scriptFailure w)
  end end end end end end.

Definition renderCalls (w : World) (req : Request) : list Event :=
  CallLaunch ::
  match launch w with
  | Throw _ => []
  | Ok _ =>
  CallNewPage ::
  match newPage w with
  | Throw _ => []
  | Ok _ =>
  CallSetUserAgent ::
  match setUserAgent w with
  | Throw _ => []
  | Ok _ =>
  CallGoto (url req) ::
  match goto w (url req) with
  | Throw _ => []
  | Ok _ => [CallEvaluate]
  end end end end.

Definition answer (w : World) (req : Request) : list Event :=
  match render w req with
  | Ok data =>
      vibeCalls w (data_rawText data)
      ++ [match vibeValue w (data_rawText data) with
          | Ok vibe => Respond 200 (Payload data vibe)
          | Throw e => Respond 500 (ErrorBody "Failed to analyze URL" (message e))
          end]
  | Throw e => [Respond 500 (ErrorBody "Failed to analyze URL" (message e))]
  end.

Definition release (w : World) : list Event :=
  match launch w with
  | Ok _ => [CallClose]
  | Throw _ => []
  end.

Definition isInvocation (ev : Event) : bool :=
  match ev with
  | CallBackend _ _ => true
  | _ => false
  end.

Definition isBackendEvent (ev : Event) : bool :=
  match ev with
  | CallBackend _ _ | CallImport _ => true
  | _ => false
  end.


(** The number of characters [a] at the start of [s]. *)
Fixpoint leading (a : ascii) (s : string) : nat :=
  match s with
  | EmptyString => O
  | String c s' => if Ascii.eqb c a then S (leading a s') else O
  end.

(** The character of a code fence. *)
Definition backtick : ascii := ascii_of_nat 96.


End Vocabulary.

(** * Concrete inputs *)

Module Pages.

(** The computed style of an element that no rule paints. *)
Definition plain : Style :=
  mkStyle "rgba(0, 0, 0, 0)" "rgb(0, 0, 0)" "rgb(0, 0, 0)" "none" "Times New Roman".

Definition withBackground (bg : string) : Style :=
  mkStyle bg "rgb(255, 255, 255)" "rgb(0, 0, 0)" "none" "Times New Roman".

Definition withFill (f : string) : Style :=
  mkStyle "rgba(0, 0, 0, 0)" "rgb(0, 0, 0)" f "none" "Times New Roman".

Definition withFont (f : string) : Style :=
  mkStyle "rgba(0, 0, 0, 0)" "rgb(0, 0, 0)" "rgb(0, 0, 0)" "none" f.

Definition elem (tag : string) (attrs : list (string * string))
  (kids : list Element) : Element :=
  mkElement tag attrs plain "" "" "" "" kids.

Definition styled (tag : string) (attrs : list (string * string)) (st : Style)
  (kids : list Element) : Element :=
  mkElement tag attrs st "" "" "" "" kids.

Definition page (head body : list Element) : Document :=
  mkDocument
    (Some (elem "html" [] [elem "head" [] head; elem "body" [] body]))
    "https://example.com" false.

Definition meta (key name value : string) : Element :=
  elem "meta" [(key, name); ("content", value)] [].

(** A page whose only coloured element is a button in the header. *)
Definition header_button : Document :=
  page [] [elem "header" [] [styled "button" [] (withBackground "rgb(255, 87, 51)") []]].

(** A page that declares its theme colour in lower-case hex. *)
Definition hex_theme : Document :=
  page [meta "name" "theme-color" "#1a2b3c"] [].

(** White as the declared theme colour, in the two spellings. *)
Definition white_theme : Document :=
  page [meta "name" "theme-color" "#ffffff"] [].

Definition white_theme_upper : Document :=
  page [meta "name" "theme-color" "#FFFFFF"] [].

(** One colour as the theme colour in lower-case hex and as the
    background of a header button. *)
Definition theme_and_button : Document :=
  page [meta "name" "theme-color" "#ff5733"]
       [elem "header" [] [styled "button" [] (withBackground "rgb(255, 87, 51)") []]].

(** A theme colour and a filled vector graphic in the header. *)
Definition theme_and_svg : Document :=
  page [meta "name" "theme-color" "#112233"]
       [elem "header" [] [styled "svg" [] (withFill "rgb(68, 85, 102)") []]].

(** A header with a button, and a navigation bar beside it with a button
    and a vector graphic. *)
Definition header_and_nav : Document :=
  page []
       [elem "header" [] [styled "button" [] (withBackground "rgb(10, 20, 30)") []];
        elem "nav" []
          [styled "button" [] (withBackground "rgb(40, 50, 60)") [];
           styled "svg" [] (withFill "rgb(70, 80, 90)") []]].

(** Neither header nor navigation bar. *)
Definition plain_buttons : Document :=
  page [meta "name" "theme-color" "rgb(1, 2, 3)"]
       [styled "button" [] (withBackground "rgb(40, 50, 60)") [];
        styled "svg" [] (withFill "rgb(70, 80, 90)") []].

(** No header: the navigation bar is the region. *)
Definition nav_only : Document :=
  page []
       [elem "nav" []
          [styled "button" [] (withBackground "rgb(40, 50, 60)") []]].

End Pages.

Module LogoPages.

Import Pages.

Definition img (attrs : list (string * string)) (src : string) : Element :=
  mkElement "img" attrs plain src "" "" "" [].

Definition svg (markup : string) : Element :=
  mkElement "svg" [] plain "" "" "" markup [].

Definition touchIcon (href : string) : Element :=
  mkElement "link" [("rel", "apple-touch-icon"); ("href", "/icon.png")]
            plain "" href "" "" [].

(** All four strategies have a result. *)
Definition every_strategy : Document :=
  page [meta "property" "og:image" "https://example.com/og.png";
        touchIcon "https://example.com/icon.png"]
       [elem "header" []
          [img [("class", "site-logo"); ("src", "/brand.png")]
               "https://example.com/brand.png";
           elem "a" [("href", "/")] [svg "<svg></svg>"]]].

(** The header image is named a logo and has no [src] attribute (its
    locator is in [data-src]); the page declares a social-preview image. *)
Definition lazy_logo : Document :=
  page [meta "property" "og:image" "https://example.com/og.png"]
       [elem "header" []
          [img [("class", "site-logo"); ("data-src", "/brand.png")] ""]].

(** Only a home link with a vector graphic. *)
Definition home_svg : Document :=
  page [] [elem "a" [("href", "/")] [svg "<svg></svg>"]].

(** Only metadata. *)
Definition og_only : Document :=
  page [meta "property" "og:image" "https://example.com/og.png";
        touchIcon "https://example.com/icon.png"] [].

Definition icon_only : Document :=
  page [touchIcon "https://example.com/icon.png"] [].

Definition bare : Document := page [] [].

End LogoPages.

(** [typography_resolver] and [content_digest] on concrete pages. *)
Module TextPages.

Import Pages.

Definition dquote : string := String (ascii_of_nat 34) EmptyString.

(** font-family: "Helvetica Neue", Arial, sans-serif; no [h1]. *)
Definition no_heading : Document :=
  mkDocument
    (Some (elem "html" []
             [elem "head" [] [];
              mkElement "body" []
                (withFont (dquote ++ "Helvetica Neue" ++ dquote ++ ", Arial, sans-serif")%string)
                "" "" "Welcome" "" [elem "p" [] []]]))
    "https://example.com" false.

(** A heading in its own font and a description. *)
Definition article : Document :=
  mkDocument
    (Some (elem "html" []
             [elem "head" [] [meta "name" "description" "All about type."];
              mkElement "body" [] (withFont "Arial, sans-serif")
                "" "" "Type matters. Read on." ""
                [mkElement "h1" [] (withFont "'Playfair Display', Georgia, serif")
                           "" "" "Type matters" "" []]]))
    "https://example.com" false.

End TextPages.

Module Worlds.

Import Server.

(** An [Error] object with a message. *)
Definition failed (m : string) : Thrown :=
  mkThrown (Some m) ("Error: " ++ m)%string.

(** The TypeError of the engine that runs the server. *)
Definition propertyOf (n : Nullish) : Thrown :=
  let m := match n with
           | Undefined => "Cannot read properties of undefined (reading 'message')"
           | Null => "Cannot read properties of null (reading 'message')"
           end in
  mkThrown (Some m) ("TypeError: " ++ m)%string.

(** A world in which the browser and the page work and the page is
    [TextPages.article]; the credentials, the page load and the end of
    the backends' calls vary. *)
Definition backends (google openai : option string) (load : Result unit)
  (reply : Completion string) (parse : string -> Result Json) : World :=
  {| GOOGLE_API_KEY := google;
     OPENAI_API_KEY := openai;
     launch := Ok tt;
     newPage := Ok tt;
     setUserAgent := Ok tt;
     goto := fun _ => load;
     evaluate := Ok TextPages.article;
     scriptFailure := failed "Evaluation failed";
     importModule := fun _ => Returns tt;
     generateContent := fun _ _ => reply;
     createCompletion := fun _ _ _ =>
       match reply with
       | Returns t => Returns (Some t)
       | Raises v => Raises v
       end;
     JSON_parse := parse;
     typeError := propertyOf;
     close := Ok tt |}.

(** The same, with backends that reply or fail with an error object. *)
Definition world (google openai : option string) (load : Result unit)
  (reply : Result string) (parse : string -> Result Json) : World :=
  backends google openai load (completion reply) parse.

(** [JSON.parse] on the one text the worlds below send to it, the empty
    array; any other text is a syntax error here. *)
Definition parse_array (t : string) : Result Json :=
  if String.eqb t "[]" then Ok (JArr [])
  else Throw (failed "Unexpected token").

(** The reply of the first backend is an empty JSON array inside a code
    fence. *)
Definition fenced_array : string :=
  ("```json" ++ PageScript.newline ++ "[]" ++ PageScript.newline ++ "```")%string.

Definition array_reply : World :=
  world (Some "g-key") None (Ok tt) (Ok fenced_array) parse_array.


(** The first backend rejects with [undefined]. *)
Definition rejects_undefined : World :=
  backends (Some "g-key") None (Ok tt) (Raises (RaisedNullish Undefined))
           parse_array.


(** The page does not load. *)
Definition load_fails : World :=
  world None None (Throw (failed "Navigation timeout of 60000 ms exceeded"))
        (Throw (failed "fetch failed")) parse_array.


(** Both credentials, and the page does not load. *)
Definition keys_but_no_page : World :=
  world (Some "g-key") (Some "o-key")
        (Throw (failed "Navigation timeout of 60000 ms exceeded"))
        (Ok "[]") parse_array.



Definition request : Request := {| url := Some (JStr "https://example.com") |}.


End Worlds.

(** * Properties *)

(** ** The conversions on concrete texts *)

Example rgbToHex_rgb : rgbToHex "rgb(255, 87, 51)" = Some "#FF5733".
Proof. reflexivity. Qed.

Example rgbToHex_rgba0 : rgbToHex "rgba(0, 0, 0, 0)" = Some "#000000".
Proof. reflexivity. Qed.

Example rgbToHex_named : rgbToHex "rebeccapurple" = None.
Proof. reflexivity. Qed.

Example rgbToHex_two_components : rgbToHex "hsl(12, 50)" = None.
Proof. reflexivity. Qed.

Example rgbToHex_short_hex : rgbToHex "#abc" = Some "#abc".
Proof. reflexivity. Qed.

Example rgbToHex_wide_component : rgbToHex "rgb(4096, 0, 0)" = Some "#1000000".
Proof. reflexivity. Qed.

Example rgbToHex_wrapped_component : rgbToHex "rgb(32768, 0, 0)" = Some "#7F000000".
Proof. reflexivity. Qed.

Example btoa_3 : Base64.btoa "Man" = "TWFu". Proof. reflexivity. Qed.
Example btoa_2 : Base64.btoa "Ma" = "TWE=". Proof. reflexivity. Qed.
Example btoa_1 : Base64.btoa "M" = "TQ==". Proof. reflexivity. Qed.
Example btoa_svg : Base64.btoa "<svg></svg>" = "PHN2Zz48L3N2Zz4=". Proof. reflexivity. Qed.

(** ** Colour conversion *)

Section ColourConversion.

Lemma to_int32_small (z : Z) : 0 <= z < 2 ^ 31 -> to_int32 z = z.
Proof.
  intros H. unfold to_int32.
  rewrite Z.mod_small by lia. lia.
Qed.

Lemma shl_byte (a n : Z) :
  0 <= a <= 255 -> 0 <= n <= 16 -> shl a n = a * 2 ^ n.
Proof.
  intros Ha Hn. unfold shl.
  rewrite (to_int32_small a) by lia.
  rewrite Z.shiftl_mul_pow2 by lia.
  apply to_int32_small.
  assert (2 ^ n <= 2 ^ 16) by (apply Z.pow_le_mono_r; lia).
  assert (0 < 2 ^ n) by (apply Z.pow_pos_nonneg; lia).
  nia.
Qed.

Lemma hex_digits_push (f : nat) (m d : Z) (acc : string) :
  0 <= d < 16 -> 0 < m ->
  hex_digits (S f) (m * 16 + d) acc = hex_digits f m (String (hex_digit d) acc).
Proof.
  intros Hd Hm. cbn [hex_digits].
  replace ((m * 16 + d) mod 16) with d
    by (rewrite Z.add_comm, Z.mod_add by lia; symmetry; apply Z.mod_small; lia).
  replace ((m * 16 + d) / 16) with m
    by (rewrite Z.add_comm, Z.div_add by lia; rewrite Z.div_small by lia; lia).
  destruct (Z.eqb_spec m 0); [lia | reflexivity].
Qed.

Lemma hex_digits_last (f : nat) (d : Z) (acc : string) :
  0 <= d < 16 -> hex_digits (S f) d acc = String (hex_digit d) acc.
Proof.
  intros Hd. cbn [hex_digits].
  rewrite Z.div_small, Z.mod_small by lia. reflexivity.
Qed.

Lemma HEX_is_upper_hex (d : Z) : 0 <= d < 16 -> is_upper_hex (HEX d) = true.
Proof.
  intros Hd.
  assert (E : d = 0 \/ d = 1 \/ d = 2 \/ d = 3 \/ d = 4 \/ d = 5 \/ d = 6
              \/ d = 7 \/ d = 8 \/ d = 9 \/ d = 10 \/ d = 11 \/ d = 12
              \/ d = 13 \/ d = 14 \/ d = 15) by lia.
  repeat (destruct E as [-> | E]; [reflexivity | ]). subst d. reflexivity.
Qed.

(** The text that [toString(16).slice(1).toUpperCase()] gives for the sum
    of three bytes and [1 << 24]. *)
Lemma hex_of_bytes (r g b : Z) :
  0 <= r <= 255 -> 0 <= g <= 255 -> 0 <= b <= 255 ->
  toUpperCase (slice1 (toString16 (2 ^ 24 + r * 2 ^ 16 + g * 2 ^ 8 + b)))
  = (hex2 r ++ hex2 g ++ hex2 b)%string.
Proof.
  intros Hr Hg Hb.
  set (n := 2 ^ 24 + r * 2 ^ 16 + g * 2 ^ 8 + b).
  assert (Hn : 2 ^ 24 <= n < 2 ^ 25) by (unfold n; lia).
  unfold toString16.
  destruct (Z.ltb_spec n 0) as [Hneg | _]; [lia | ].
  unfold hex_of_nonneg.
  replace (Z.log2 n) with 24 by (symmetry; apply Z.log2_unique; lia).
  change (S (Z.to_nat 24)) with 25%nat.
  pose proof (Z.div_mod r 16 ltac:(lia)) as Er.
  pose proof (Z.div_mod g 16 ltac:(lia)) as Eg.
  pose proof (Z.div_mod b 16 ltac:(lia)) as Eb.
  pose proof (Z.mod_pos_bound r 16 ltac:(lia)) as Br.
  pose proof (Z.mod_pos_bound g 16 ltac:(lia)) as Bg.
  pose proof (Z.mod_pos_bound b 16 ltac:(lia)) as Bb.
  assert (0 <= r / 16 < 16) as Dr by (split; [apply Z.div_pos | apply Z.div_lt_upper_bound]; lia).
  assert (0 <= g / 16 < 16) as Dg by (split; [apply Z.div_pos | apply Z.div_lt_upper_bound]; lia).
  assert (0 <= b / 16 < 16) as Db by (split; [apply Z.div_pos | apply Z.div_lt_upper_bound]; lia).
  replace n with
    ((((((1 * 16 + r / 16) * 16 + r mod 16) * 16 + g / 16) * 16 + g mod 16)
        * 16 + b / 16) * 16 + b mod 16) by (unfold n; lia).
  rewrite !hex_digits_push by lia.
  rewrite hex_digits_last by lia.
  reflexivity.
Qed.

Lemma canonical_of_bytes (r g b : Z) :
  0 <= r <= 255 -> 0 <= g <= 255 -> 0 <= b <= 255 ->
  canonical (String "#" (hex2 r ++ hex2 g ++ hex2 b)) = true.
Proof.
  intros Hr Hg Hb.
  assert (D : forall x, 0 <= x <= 255 -> 0 <= x / 16 < 16 /\ 0 <= x mod 16 < 16).
  { intros x Hx. split.
    - split; [apply Z.div_pos | apply Z.div_lt_upper_bound]; lia.
    - apply Z.mod_pos_bound; lia. }
  destruct (D r Hr), (D g Hg), (D b Hb).
  unfold hex2. cbn [append canonical forallb].
  rewrite !HEX_is_upper_hex by assumption. reflexivity.
Qed.

Lemma startsWith_hash (c : string) :
  startsWith "#" c = true -> exists t, c = String "#" t.
Proof.
  unfold startsWith.
  destruct c as [ | a t]; cbn [String.prefix]; [discriminate | ].
  destruct (Ascii.ascii_dec "#" a) as [<- | ]; [eauto | discriminate].
Qed.

Lemma addColor_key (cc : PageScript.ColorCounts) (c : string) (w : Z) (k : string) :
  In k (keys (PageScript.addColor cc c w)) ->
  In k (keys cc) \/ rgbToHex c = Some k.
Proof.
  unfold PageScript.addColor, PageScript.accepted.
  destruct (rgbToHex c) as [hex | ]; [ | auto].
  destruct (negb (String.eqb hex "") && negb (PageScript.rejected hex)); [ | auto].
  induction cc as [ | [k' v] cc IH]; cbn.
  - intros [<- | []]. right. reflexivity.
  - destruct (String.eqb k' hex); cbn; intuition.
Qed.

(** C4, as amended.  For every colour text [c]:
    - a text that starts with [#] is returned exactly as written, whatever
      its length or case;
    - a text that does not start with [#] and holds fewer than three runs
      of digits gives no hex, and [addColor] leaves the counts as they
      are (no candidate, no error);
    - a text that does not start with [#] and whose first three runs of
      digits are each at most 255 gives [#] followed by the six upper-case
      hexadecimal digits of the three numbers;
    - a hex that [addColor] adds to the counts for [c] is the conversion
      of [c]. *)
Theorem rgbToHex_conversion (c : string) :
  (startsWith "#" c = true -> rgbToHex c = Some c)
  /\ (startsWith "#" c = false ->
      (length (digit_runs EmptyString c) < 3)%nat ->
      rgbToHex c = None
      /\ forall cc w, PageScript.addColor cc c w = cc)
  /\ (startsWith "#" c = false ->
      forall r0 r1 r2 rest,
        digit_runs EmptyString c = r0 :: r1 :: r2 :: rest ->
        is_byte (parseInt r0) -> is_byte (parseInt r1) -> is_byte (parseInt r2) ->
        let h := String "#" (hex2 (parseInt r0) ++ hex2 (parseInt r1)
                                ++ hex2 (parseInt r2)) in
        rgbToHex c = Some h /\ canonical h = true)
  /\ (forall cc w k, In k (keys (PageScript.addColor cc c w)) ->
        In k (keys cc) \/ rgbToHex c = Some k).
Proof.
  split; [ | split; [ | split; [ | intros cc w k; apply addColor_key]]].
  - intros H. destruct (startsWith_hash c H) as [t ->].
    unfold rgbToHex. rewrite H. reflexivity.
  - intros H Hlen.
    assert (E : rgbToHex c = None).
    { unfold rgbToHex. rewrite H. unfold match_digits.
      destruct (String.eqb c ""); [reflexivity | ].
      destruct (digit_runs EmptyString c) as [ | a [ | b [ | x l]]];
        cbn in Hlen; try reflexivity; lia. }
    split; [exact E | ].
    intros cc w. unfold PageScript.addColor, PageScript.accepted.
    rewrite E. reflexivity.
  - intros H r0 r1 r2 rest Hruns B0 B1 B2 h.
    split; [ | apply canonical_of_bytes; assumption].
    unfold rgbToHex. rewrite H. unfold match_digits. rewrite Hruns.
    destruct (String.eqb_spec c "") as [-> | _]; [cbn in Hruns; discriminate Hruns | ].
    unfold is_byte in *.
    change (shl 1 24) with (2 ^ 24).
    rewrite (shl_byte (parseInt r0) 16), (shl_byte (parseInt r1) 8) by lia.
    rewrite hex_of_bytes by assumption.
    reflexivity.
Qed.

End ColourConversion.

(** The three cases of [rgbToHex_conversion] on texts the script meets:
    a hex theme colour, a named colour in a metadata value, a computed
    colour. *)
Lemma rgbToHex_conversion_witness :
  rgbToHex "#1a2b3c" = Some "#1a2b3c"
  /\ rgbToHex "rebeccapurple" = None
  /\ rgbToHex "rgb(255, 87, 51)" = Some "#FF5733"
  /\ canonical "#FF5733" = true.
Proof.
  split; [ | split].
  - exact (proj1 (rgbToHex_conversion "#1a2b3c") eq_refl).
  - refine (proj1 (proj1 (proj2 (rgbToHex_conversion "rebeccapurple")) eq_refl _)).
    vm_compute. lia.
  - refine (proj1 (proj2 (proj2 (rgbToHex_conversion "rgb(255, 87, 51)"))) eq_refl
              "255" "87" "51" [] eq_refl _ _ _);
      vm_compute; split; discriminate.
Defined.

(** ** The colour counts and their ranking *)

Section ColourCounts.

Import PageScript.

Lemma bump_keys_in (h k : string) (w : Z) (cc : ColorCounts) :
  In k (keys (bump h w cc)) <-> k = h \/ In k (keys cc).
Proof.
  induction cc as [ | [k' v] cc IH]; cbn.
  - intuition.
  - destruct (String.eqb_spec k' h) as [-> | Hne]; cbn.
    + intuition.
    + rewrite IH. intuition.
Qed.

Lemma bump_keys_NoDup (h : string) (w : Z) (cc : ColorCounts) :
  NoDup (keys cc) -> NoDup (keys (bump h w cc)).
Proof.
  induction cc as [ | [k' v] cc IH]; cbn; intros H.
  - constructor; [intros [] | constructor].
  - inversion H as [ | ? ? Hnotin Hnd]; subst.
    destruct (String.eqb_spec k' h) as [-> | Hne]; cbn.
    + constructor; assumption.
    + constructor; [ | apply IH; assumption].
      intros Hin. apply bump_keys_in in Hin. destruct Hin as [-> | Hin]; auto.
Qed.

Lemma weight_of_bump (h k : string) (w : Z) (cc : ColorCounts) :
  weight_of k (bump h w cc)
  = weight_of k cc + (if String.eqb h k then w else 0).
Proof.
  induction cc as [ | [k' v] cc IH]; cbn.
  - destruct (String.eqb h k); lia.
  - destruct (String.eqb_spec k' h) as [-> | Hne]; cbn.
    + destruct (String.eqb h k); [ | lia].
      destruct (Z.eqb_spec v 0); lia.
    + destruct (String.eqb_spec k' k) as [-> | Hne'].
      * destruct (String.eqb_spec h k); [congruence | lia].
      * apply IH.
Qed.

Lemma weight_of_in (k : string) (v : Z) (cc : ColorCounts) :
  NoDup (keys cc) -> In (k, v) cc -> weight_of k cc = v.
Proof.
  induction cc as [ | [k' v'] cc IH]; cbn; intros Hnd Hin; [contradiction | ].
  inversion Hnd as [ | ? ? Hnotin Hnd']; subst.
  destruct Hin as [E | Hin].
  - inversion E; subst. rewrite String.eqb_refl. reflexivity.
  - destruct (String.eqb_spec k' k) as [-> | _].
    + exfalso. apply Hnotin. apply (in_map fst) in Hin. exact Hin.
    + apply IH; assumption.
Qed.

Lemma total_app (k : string) (l1 l2 : list Observation) :
  total k (l1 ++ l2) = total k l1 + total k l2.
Proof.
  induction l1 as [ | o l1 IH]; cbn; [reflexivity | ].
  unfold total in IH. rewrite IH. unfold total. lia.
Qed.

Lemma weight_of_count (k : string) (obs : list Observation) (cc : ColorCounts) :
  weight_of k (fold_left count obs cc) = weight_of k cc + total k obs.
Proof.
  revert cc. induction obs as [ | o obs IH]; intros cc; cbn [fold_left total fold_right].
  - lia.
  - rewrite IH. fold (total k obs).
    unfold count, addColor, share.
    destruct (accepted (colorText o)) as [h | ]; [ | lia].
    rewrite weight_of_bump. lia.
Qed.

Lemma accepted_admissible (c h : string) : accepted c = Some h -> admissible h.
Proof.
  unfold accepted, admissible.
  destruct (rgbToHex c) as [x | ]; [ | discriminate].
  destruct (String.eqb_spec x ""); cbn [negb andb]; [discriminate | ].
  destruct (rejected x) eqn:R; cbn [negb]; [discriminate | ].
  intros E; inversion E; subst. auto.
Qed.

Lemma count_invariant (obs : list Observation) (cc : ColorCounts) :
  NoDup (keys cc) -> Forall admissible (keys cc) ->
  NoDup (keys (fold_left count obs cc))
  /\ Forall admissible (keys (fold_left count obs cc)).
Proof.
  revert cc. induction obs as [ | o obs IH]; intros cc Hnd Hadm; cbn [fold_left].
  - auto.
  - apply IH; unfold count, addColor.
    + destruct (accepted (colorText o)); [apply bump_keys_NoDup | ]; assumption.
    + destruct (accepted (colorText o)) as [h | ] eqn:E; [ | assumption].
      apply Forall_forall. intros k Hin.
      apply bump_keys_in in Hin. destruct Hin as [-> | Hin].
      * eapply accepted_admissible; eassumption.
      * rewrite Forall_forall in Hadm. auto.
Qed.

(** *** The stable sort by descending weight *)

Lemma insert_perm (x : string * Z) (l : list (string * Z)) :
  Permutation (insert x l) (x :: l).
Proof.
  induction l as [ | y l IH]; cbn; [reflexivity | ].
  destruct (snd x <? snd y); [ | reflexivity].
  rewrite IH. apply perm_swap.
Qed.

Lemma sort_perm (l : list (string * Z)) : Permutation (sort l) l.
Proof.
  induction l as [ | x l IH]; cbn; [reflexivity | ].
  rewrite insert_perm. constructor. exact IH.
Qed.

Lemma insert_descending (x : string * Z) (l : list (string * Z)) :
  descending l -> descending (insert x l).
Proof.
  unfold descending.
  induction l as [ | y l IH]; cbn; intros H.
  - constructor; constructor.
  - inversion H as [ | ? ? Hl Hy]; subst.
    destruct (Z.ltb_spec (snd x) (snd y)) as [Hlt | Hge].
    + constructor; [apply IH; assumption | ].
      apply Forall_forall. intros z Hz.
      apply (Permutation_in _ (insert_perm x l)) in Hz.
      destruct Hz as [<- | Hz]; [lia | ].
      rewrite Forall_forall in Hy. auto.
    + constructor; [assumption | ].
      constructor; [lia | ].
      apply Forall_forall. intros z Hz.
      rewrite Forall_forall in Hy. specialize (Hy z Hz). lia.
Qed.

Lemma sort_descending (l : list (string * Z)) : descending (sort l).
Proof.
  induction l as [ | x l IH]; cbn.
  - constructor.
  - apply insert_descending. exact IH.
Qed.

(** X2.  The ranking is the stable sort by descending weight: the sorted
    list holds the same entries, each weighs at least as much as every
    later one, and the entries of any one weight keep the order in which
    they were first counted. *)
Theorem sort_stable (l : list (string * Z)) :
  Permutation (sort l) l
  /\ descending (sort l)
  /\ forall v, filter (fun x => snd x =? v) (sort l)
               = filter (fun x => snd x =? v) l.
Proof.
  split; [apply sort_perm | ]. split; [apply sort_descending | ].
  intros v. induction l as [ | x l IH]; [reflexivity | ].
  cbn [sort fold_right]. fold (sort l).
  cbn [filter]. rewrite <- IH. clear IH.
  induction (sort l) as [ | y s IHs]; [reflexivity | ].
  cbn [insert]. destruct (Z.ltb_spec (snd x) (snd y)) as [Hlt | Hge];
    [ | reflexivity].
  cbn [filter]. rewrite IHs.
  destruct (Z.eqb_spec (snd x) v) as [Ex | Nx]; [ | reflexivity].
  destruct (Z.eqb_spec (snd y) v) as [Ey | Ny]; [lia | reflexivity].
Qed.

Lemma firstn_incl {A : Type} (n : nat) (l : list A) (x : A) :
  In x (firstn n l) -> In x l.
Proof.
  intros H. rewrite <- (firstn_skipn n l). apply in_or_app. left. exact H.
Qed.

Lemma firstn_NoDup {A : Type} (n : nat) (l : list A) :
  NoDup l -> NoDup (firstn n l).
Proof.
  intros H. rewrite <- (firstn_skipn n l) in H.
  eapply NoDup_app_remove_r. exact H.
Qed.

Lemma sortedColors_keys (d : Document) :
  sortedColors d = firstn 8 (keys (sort (colorCounts d))).
Proof. unfold sortedColors, keys. symmetry. apply firstn_map. Qed.

Lemma colorCounts_invariant (d : Document) :
  NoDup (keys (colorCounts d)) /\ Forall admissible (keys (colorCounts d)).
Proof.
  unfold colorCounts. apply count_invariant; constructor.
Qed.

Lemma sorted_keys_perm (cc : ColorCounts) : Permutation (keys (sort cc)) (keys cc).
Proof. unfold keys. apply Permutation_map. apply sort_perm. Qed.

Lemma entry_admissible (d : Document) (e : string) :
  In e (sortedColors d) -> admissible e.
Proof.
  rewrite sortedColors_keys. intros H. apply firstn_incl in H.
  apply (Permutation_in _ (sorted_keys_perm _)) in H.
  destruct (colorCounts_invariant d) as [_ Hadm].
  rewrite Forall_forall in Hadm. auto.
Qed.

(** X1.  The palette of every document, entry by entry as text: at most eight
    entries, no text twice, none of the texts [#FFFFFF], [#000000] and
    [#00000000]; the primary colour is [#000000] when there is no entry,
    and otherwise the first entry, whose accumulated weight no counted
    colour exceeds. *)
Theorem palette_invariant (d : Document) :
  let entries := sortedColors d in
  (length entries <= 8)%nat
  /\ NoDup entries
  /\ ~ In "#FFFFFF" entries
  /\ ~ In "#000000" entries
  /\ ~ In "#00000000" entries
  /\ (entries = [] -> primaryColor d = "#000000")
  /\ (forall e rest, entries = e :: rest ->
        primaryColor d = e
        /\ exists v, In (e, v) (colorCounts d)
                     /\ forall k v', In (k, v') (colorCounts d) -> v' <= v).
Proof.
  cbv zeta.
  assert (R : forall h, rejected h = true -> ~ In h (sortedColors d)).
  { intros h Hr Hin. apply entry_admissible in Hin. destruct Hin as [_ Hin].
    congruence. }
  repeat split.
  - rewrite sortedColors_keys. apply firstn_le_length.
  - rewrite sortedColors_keys. apply firstn_NoDup.
    apply (Permutation_NoDup (Permutation_sym (sorted_keys_perm _))).
    exact (proj1 (colorCounts_invariant d)).
  - apply R. reflexivity.
  - apply R. reflexivity.
  - apply R. reflexivity.
  - intros E. unfold primaryColor. rewrite E. reflexivity.
  - unfold primaryColor. rewrite H.
    assert (A : admissible e) by (apply (entry_admissible d); rewrite H; left; reflexivity).
    destruct A as [Hne _].
    destruct (String.eqb_spec e ""); [contradiction | reflexivity].
  - unfold sortedColors in H.
    pose proof (sort_descending (colorCounts d)) as Hs.
    pose proof (sort_perm (colorCounts d)) as Hp.
    destruct (sort (colorCounts d)) as [ | [e' v] s'] eqn:Es; [discriminate H | ].
    cbn in H. inversion H; subst e'.
    exists v. split.
    + apply (Permutation_in _ Hp). left. reflexivity.
    + intros k v' Hin.
      apply (Permutation_in _ (Permutation_sym Hp)) in Hin.
      destruct Hin as [E | Hin].
      * inversion E. lia.
      * inversion Hs as [ | ? ? _ Hall]; subst.
        rewrite Forall_forall in Hall. apply (Hall _ Hin).
Qed.

End ColourCounts.

(** ** The tree: paths of descendants *)

Section Tree.

Lemma insideb_inside (h n : Node) : insideb h n = true <-> inside h n.
Proof.
  unfold insideb, inside. split.
  - remember (length (path n) - length (path h))%nat as k eqn:Ek.
    intros H. apply andb_true_iff in H. destruct H as [Hk Heq].
    apply Nat.ltb_lt in Hk.
    destruct (list_eq_dec _ _ _) as [E | ]; [ | discriminate].
    exists (firstn k (path n)). split.
    + intros Hnil. apply (f_equal (@length nat)) in Hnil.
      rewrite length_firstn in Hnil. cbn in Hnil. lia.
    + rewrite <- E. symmetry. apply firstn_skipn.
  - intros [q [Hq E]]. rewrite E, length_app.
    replace (length q + length (path h) - length (path h))%nat with (length q) by lia.
    rewrite skipn_app, skipn_all, Nat.sub_diag. cbn [skipn app].
    destruct (list_eq_dec _ _ _) as [_ | Hne]; [ | contradiction].
    destruct q; [contradiction | reflexivity].
Qed.

Lemma walk_paths (e : Element) :
  forall p anc n, In n (walk p anc e) ->
    n = mkNode p anc e \/ exists q, q <> [] /\ path n = q ++ p.
Proof.
  induction e as [ln at_ st rs rh it oh kids IH] using Element_children_ind.
  intros p anc n Hin. cbn [walk] in Hin. destruct Hin as [<- | Hin]; [auto | ].
  right.
  set (e := mkElement ln at_ st rs rh it oh kids) in *.
  clearbody e.
  revert Hin. generalize O as i.
  induction kids as [ | c kids IHk]; intros i Hin; [contradiction | ].
  inversion IH as [ | ? ? Hc Hkids]; subst.
  apply in_app_or in Hin. destruct Hin as [Hin | Hin].
  - apply Hc in Hin. destruct Hin as [-> | [q [Hq E]]].
    + exists [i]. split; [discriminate | reflexivity].
    + exists (q ++ [i]). split.
      * destruct q; discriminate.
      * rewrite E, <- app_assoc. reflexivity.
  - apply (IHk Hkids (S i)). exact Hin.
Qed.

Lemma descendants_inside (h n : Node) : In n (descendants h) -> inside h n.
Proof.
  unfold descendants, subtree. intros Hin.
  destruct h as [p anc e]. cbn [path ancestors element] in *.
  assert (Hw : forall m, In m (tl (walk p anc e)) ->
                 exists q, q <> [] /\ path m = q ++ p).
  { intros m Hm.
    induction e as [ln at_ st rs rh it oh kids _] using Element_children_ind.
    cbn [walk tl] in Hm.
    set (e := mkElement ln at_ st rs rh it oh kids) in *. clearbody e.
    revert Hm. generalize O as i.
    induction kids as [ | c kids IHk]; intros i Hm; [contradiction | ].
    apply in_app_or in Hm. destruct Hm as [Hm | Hm].
    - apply walk_paths in Hm. destruct Hm as [-> | [q [Hq E]]].
      + exists [i]. split; [discriminate | reflexivity].
      + exists (q ++ [i]). split.
        * destruct q; discriminate.
        * rewrite E, <- app_assoc. reflexivity.
    - apply (IHk (S i)). exact Hm. }
  unfold inside. cbn [path]. apply Hw. exact Hin.
Qed.

Lemma find_filter {A : Type} (f : A -> bool) (l : list A) :
  hd_error (filter f l) = find f l.
Proof.
  induction l as [ | x l IH]; cbn; [reflexivity | ].
  destruct (f x); [reflexivity | exact IH].
Qed.

Lemma find_pointwise {A : Type} (f g : A -> bool) (l : list A) :
  (forall x, f x = g x) -> find f l = find g l.
Proof.
  intros E. induction l as [ | x l IH]; cbn; [reflexivity | ].
  rewrite E, IH. reflexivity.
Qed.

Lemma matches_tag (q : bool) (t : string) (n : Node) :
  matches q [Subject [Tag t]] n = String.eqb (localName (element n)) t.
Proof.
  cbn. rewrite andb_true_r, orb_false_r. reflexivity.
Qed.

Lemma querySelector_tag (d : Document) (t : string) :
  querySelector d [Subject [Tag t]] = first_named t d.
Proof.
  unfold querySelector, querySelectorAll, first_named.
  rewrite find_filter. apply find_pointwise. intros n. apply matches_tag.
Qed.

End Tree.

(** ** The palettes of concrete pages *)

Example header_button_palette :
  PageScript.colorCounts Pages.header_button = [("#FF5733", 13)]
  /\ PageScript.primaryColor Pages.header_button = "#FF5733".
Proof. split; reflexivity. Qed.

Example theme_and_svg_palette :
  PageScript.colorCounts Pages.theme_and_svg = [("#112233", 20); ("#445566", 8)]
  /\ PageScript.sortedColors Pages.theme_and_svg = ["#112233"; "#445566"].
Proof. split; reflexivity. Qed.

Example header_and_nav_counts :
  PageScript.colorCounts Pages.header_and_nav = [("#0A141E", 13); ("#28323C", 3)].
Proof. reflexivity. Qed.

Example nav_only_counts :
  PageScript.colorCounts Pages.nav_only = [("#28323C", 13)].
Proof. reflexivity. Qed.

(** C1: white declared as the theme colour in lower-case hex is counted
    (weight 20) and is the palette's only entry and its primary colour,
    although it is the colour [#FFFFFF]; spelled in upper case the same
    colour is rejected.  A colour met in both spellings is listed twice. *)
Lemma white_theme_in_palette :
  PageScript.colorCounts Pages.white_theme = [("#ffffff", 20)]
  /\ PageScript.sortedColors Pages.white_theme = ["#ffffff"]
  /\ PageScript.primaryColor Pages.white_theme = "#ffffff"
  /\ eqb_ci "#ffffff" "#FFFFFF" = true
  /\ PageScript.sortedColors Pages.white_theme_upper = []
  /\ PageScript.sortedColors Pages.theme_and_button = ["#ff5733"; "#FF5733"].
Proof. repeat split; reflexivity. Qed.

(** C4: a theme colour written in hex is counted as written, here in lower
    case, and so are the three-digit forms; a metadata value in functional
    form with a component above 255 gives seven digits.  None is a
    canonical hex. *)
Lemma hex_theme_not_canonical :
  rgbToHex "#1a2b3c" = Some "#1a2b3c"
  /\ canonical "#1a2b3c" = false
  /\ rgbToHex "#abc" = Some "#abc"
  /\ canonical "#abc" = false
  /\ rgbToHex "rgb(4096, 0, 0)" = Some "#1000000"
  /\ canonical "#1000000" = false
  /\ PageScript.sortedColors Pages.hex_theme = ["#1a2b3c"]
  /\ forallb canonical (PageScript.sortedColors Pages.hex_theme) = false.
Proof. repeat split; reflexivity. Qed.

(** ** The weights of the colour sources *)

Section Weights.

Import PageScript.

Lemma share_scale (k c : string) (w : Z) : share k c w = w * share k c 1.
Proof.
  unfold share. destruct (accepted c) as [h | ]; [ | lia].
  destruct (String.eqb h k); lia.
Qed.

Lemma total_cons (k : string) (o : Observation) (l : list Observation) :
  total k (o :: l) = weight o * share k (colorText o) 1 + total k l.
Proof. unfold total. cbn [fold_right]. rewrite share_scale. reflexivity. Qed.

Lemma hits_cons (k t : string) (l : list string) :
  hits k (t :: l) = share k t 1 + hits k l.
Proof. reflexivity. Qed.

Lemma total_buttons (k : string) (l : list Node) :
  total k (flat_map buttonObservations l)
  = 10 * hits k (List.map bgOf l)
    + 5 * hits k (List.map colorOf (filter transparent_bg l)).
Proof.
  induction l as [ | n l IH]; [reflexivity | ].
  cbn [flat_map List.map filter]. rewrite total_app, IH, hits_cons.
  unfold buttonObservations. rewrite total_cons. cbn [weight colorText].
  fold (bgOf n). fold (transparent_bg n).
  destruct (transparent_bg n).
  - rewrite total_cons. cbn [weight colorText List.map total fold_right].
    rewrite hits_cons. fold (colorOf n). lia.
  - cbn [total fold_right]. lia.
Qed.

Lemma total_svgs (k : string) (l : list Node) :
  total k (flat_map svgObservations l)
  = 8 * hits k (filter painted (List.map fillOf l))
    + 8 * hits k (filter painted (List.map strokeOf l)).
Proof.
  induction l as [ | n l IH]; [reflexivity | ].
  cbn [flat_map List.map filter]. rewrite total_app, IH.
  unfold svgObservations. fold (fillOf n). fold (strokeOf n).
  destruct (painted (fillOf n)), (painted (strokeOf n));
    cbn [app]; repeat rewrite total_cons; repeat rewrite hits_cons;
    cbn [weight colorText total fold_right]; lia.
Qed.

Lemma total_document (k : string) (l : list Node) :
  total k (List.map (fun btn => mkObservation btn (backgroundColor (styleOf btn)) 3) l)
  = 3 * hits k (List.map bgOf l).
Proof.
  induction l as [ | n l IH]; [reflexivity | ].
  cbn [List.map]. rewrite total_cons, hits_cons, IH.
  cbn [weight colorText]. unfold bgOf. lia.
Qed.

Lemma total_theme (k : string) (d : Document) :
  total k (themeObservations d) = 20 * hits k (themeTexts d).
Proof.
  unfold themeObservations, themeTexts.
  destruct (themeColor d); [ | reflexivity].
  rewrite total_cons, hits_cons. cbn [weight colorText total hits fold_right]. lia.
Qed.

(** The accumulated weight of every hex is the sum that the passes of
    the script make: 20 for the theme colour, 10 for the background of each of
    the region's [button, a[class*=btn], a[class*=button]] elements and 5
    for its text colour when that background is [rgba(0, 0, 0, 0)], 8 for
    each painted fill and each painted stroke of the region's vector
    graphics, and 3 for the background of every element of the whole
    document that matches [button, a[class*=btn], .button, .btn], those
    inside the header region included. *)
Lemma weight_table (d : Document) (k : string) :
  weight_of k (colorCounts d) = table d (buttons d) k.
Proof.
  unfold colorCounts. rewrite weight_of_count. cbn [weight_of].
  unfold observations, headerObservations, documentObservations.
  rewrite !total_app, total_theme, total_buttons, total_svgs, total_document.
  unfold table. lia.
Qed.

(** C3: a button in the header weighs 13, the 10 of the header row and
    the 3 of the document-wide row; by the table as the claim words it,
    it would weigh 10. *)
Lemma header_button_weighs_13 :
  weight_of "#FF5733" (colorCounts Pages.header_button) = 13
  /\ table_as_claimed Pages.header_button "#FF5733" = 10
  /\ List.map path (headerButtons Pages.header_button) = [[0; 0; 1]%nat]
  /\ List.map path (buttons Pages.header_button) = [[0; 0; 1]%nat].
Proof. repeat split; reflexivity. Qed.

End Weights.

(** ** The header region *)

Section HeaderRegion.

Import PageScript.

Lemma querySelector_matches (d : Document) (sel : Selector) (n : Node) :
  querySelector d sel = Some n -> matches (quirksMode d) sel n = true.
Proof.
  unfold querySelector, querySelectorAll. rewrite find_filter.
  intros H. apply find_some in H. apply H.
Qed.

Lemma theme_observation (d : Document) (o : Observation) :
  In o (themeObservations d) ->
  weight o = 20 /\ localName (element (source o)) = "meta".
Proof.
  unfold themeObservations. destruct (themeColor d) as [m | ] eqn:E; [ | contradiction].
  intros [<- | []]. split; [reflexivity | ].
  apply querySelector_matches in E. cbn in E.
  rewrite orb_false_r, andb_true_r in E.
  apply andb_true_iff in E. destruct E as [E _].
  apply String.eqb_eq in E. exact E.
Qed.

Lemma document_observation (d : Document) (o : Observation) :
  In o (documentObservations d) -> weight o = 3 /\ In (source o) (buttons d).
Proof.
  unfold documentObservations. intros H. apply in_map_iff in H.
  destruct H as [n [<- Hn]]. auto.
Qed.

Lemma header_observation (d : Document) (o : Observation) :
  In o (headerObservations d) ->
  (weight o = 10 \/ weight o = 5 \/ weight o = 8)
  /\ exists h, header d = Some h /\ inside h (source o).
Proof.
  unfold headerObservations, headerButtons, headerSvgs.
  intros H. apply in_app_or in H.
  destruct (header d) as [h | ]; [ | destruct H as [[] | []]].
  destruct H as [H | H]; apply in_flat_map in H; destruct H as [n [Hn Ho]];
    unfold querySelectorAllIn in Hn; apply filter_In in Hn; destruct Hn as [Hn _];
    apply descendants_inside in Hn.
  - unfold buttonObservations in Ho. destruct Ho as [<- | Ho].
    + split; [auto | eauto].
    + destruct (String.eqb _ _); [ | contradiction].
      destruct Ho as [<- | []]. split; [auto | eauto].
  - unfold svgObservations in Ho. apply in_app_or in Ho.
    destruct Ho as [Ho | Ho];
      match type of Ho with
      | In _ (if ?c then _ else _) => destruct c; [ | contradiction]
      end;
      destruct Ho as [<- | []]; (split; [auto | eauto]).
Qed.

(** C10.  The region scanned for header sources is the first [header]
    element of the document when there is one, and the first [nav] element
    otherwise.  Every call of weight 10, 5 or 8 reads an element inside
    that region; so when a [header] exists, an element that is not inside
    the first one (one that lives in a [nav] only, say) is read by the
    document-wide pass alone, with weight 3, unless it is the theme-colour
    [meta] element. *)
Theorem header_region (d : Document) :
  (forall h, first_named "header" d = Some h -> header d = Some h)
  /\ (first_named "header" d = None -> header d = first_named "nav" d)
  /\ (forall o, In o (observations d) ->
        weight o = 10 \/ weight o = 5 \/ weight o = 8 ->
        exists h, header d = Some h /\ inside h (source o))
  /\ (forall h o, first_named "header" d = Some h ->
        In o (observations d) ->
        ~ inside h (source o) ->
        localName (element (source o)) <> "meta" ->
        weight o = 3 /\ In (source o) (buttons d)).
Proof.
  assert (Hh : forall h, first_named "header" d = Some h -> header d = Some h).
  { intros h E. unfold header, sel_header. rewrite querySelector_tag, E. reflexivity. }
  split; [exact Hh | ]. split; [ | split].
  - intros E. unfold header, sel_header, sel_nav.
    rewrite !querySelector_tag, E. reflexivity.
  - intros o Hin Hw. unfold observations in Hin.
    apply in_app_or in Hin. destruct Hin as [Hin | Hin].
    + apply theme_observation in Hin. lia.
    + apply in_app_or in Hin. destruct Hin as [Hin | Hin].
      * apply header_observation in Hin. apply Hin.
      * apply document_observation in Hin. lia.
  - intros h o E Hin Hout Hmeta. unfold observations in Hin.
    apply in_app_or in Hin. destruct Hin as [Hin | Hin].
    + apply theme_observation in Hin. destruct Hin as [_ Hin]. contradiction.
    + apply in_app_or in Hin. destruct Hin as [Hin | Hin].
      * apply header_observation in Hin. destruct Hin as [_ [h' [E' Hins]]].
        rewrite (Hh h E) in E'. inversion E'; subst h'. contradiction.
      * apply document_observation in Hin. exact Hin.
Qed.

End HeaderRegion.

(** [header_region] on a page with a header and a navigation bar beside
    it: the region is the header (the first child of the body), and every
    call that reads an element outside it, the button of the navigation
    bar for one, has weight 3; on a page without a header the region is the
    first [nav]. *)
Lemma header_region_witness :
  option_map path (PageScript.header Pages.header_and_nav) = Some [0; 1]%nat
  /\ match PageScript.header Pages.header_and_nav with
     | Some h =>
         forallb (fun o => insideb h (PageScript.source o)
                           || (PageScript.weight o =? 3))
                 (PageScript.observations Pages.header_and_nav)
     | None => false
     end = true
  /\ PageScript.header Pages.nav_only = first_named "nav" Pages.nav_only.
Proof.
  pose proof (proj1 (header_region Pages.header_and_nav) _ eq_refl) as Hh.
  split; [ | split].
  - rewrite Hh. reflexivity.
  - rewrite Hh. apply forallb_forall. intros o Hin.
    destruct (insideb _ (PageScript.source o)) eqn:I; [reflexivity | ].
    apply Z.eqb_eq.
    refine (proj1 (proj2 (proj2 (proj2 (header_region Pages.header_and_nav)))
                     _ o eq_refl Hin _ _)).
    + intros Hins. apply insideb_inside in Hins. congruence.
    + intros Hmeta.
      vm_compute in Hin.
      repeat (destruct Hin as [<- | Hin]; [discriminate Hmeta || discriminate I | ]).
      contradiction.
  - exact (proj1 (proj2 (header_region Pages.nav_only)) eq_refl).
Defined.

(** ** The logo *)

Section Logo.

Import PageScript.

Example every_strategy_results :
  strategy1 LogoPages.every_strategy = Some "https://example.com/brand.png"
  /\ strategy2 LogoPages.every_strategy
     = Some "data:image/svg+xml;base64,PHN2Zz48L3N2Zz4="
  /\ strategy3 LogoPages.every_strategy = Some "https://example.com/og.png"
  /\ strategy4 LogoPages.every_strategy = Some "https://example.com/icon.png"
  /\ logoUrl LogoPages.every_strategy = Some "https://example.com/brand.png".
Proof. repeat split; reflexivity. Qed.

Lemma strategy2_truthy (d : Document) (u : string) :
  strategy2 d = Some u -> truthy u = true.
Proof.
  unfold strategy2. destruct (logoLink d) as [link | ]; [ | discriminate].
  destruct (querySelectorIn d link sel_svg) as [svg | ]; [ | discriminate].
  cbn. intros E. inversion E. reflexivity.
Qed.

Lemma truthy_nonempty (u : string) : truthy u = true <-> u <> EmptyString.
Proof.
  unfold truthy. destruct (String.eqb_spec u ""); cbn; split; congruence.
Qed.

Lemma unless_set_kept (u : string) (r : option string) :
  u <> EmptyString -> unless_set (Some u) r = Some u.
Proof.
  intros H. apply truthy_nonempty in H. unfold unless_set, unset.
  rewrite H. reflexivity.
Qed.

Lemma unless_set_unset (v r : option string) :
  unset v = true -> unless_set v r = assign v r.
Proof. intros H. unfold unless_set. rewrite H. reflexivity. Qed.

Lemma assign_unset (v r : option string) :
  unset v = true -> unset r = true -> unset (assign v r) = true.
Proof. destruct r; cbn; auto. Qed.

(** C5, as amended.  The strategies are tried in the fixed order 1 to 4,
    and a later one runs only while [logoUrl] is null or empty:
    - the locator of the header logo image, when it is not empty, is the
      result, whatever the later strategies would find;
    - otherwise the data URI of the home link's vector graphic;
    - otherwise the social-preview locator, when it is not empty;
    - otherwise the touch-icon locator;
    - and the result is null when no strategy finds anything. *)
Theorem logo_resolution (d : Document) :
  (forall u, strategy1 d = Some u -> u <> EmptyString -> logoUrl d = Some u)
  /\ (forall u, unset (strategy1 d) = true -> strategy2 d = Some u ->
        logoUrl d = Some u)
  /\ (forall u, unset (strategy1 d) = true -> strategy2 d = None ->
        strategy3 d = Some u -> u <> EmptyString -> logoUrl d = Some u)
  /\ (forall u, unset (strategy1 d) = true -> strategy2 d = None ->
        unset (strategy3 d) = true -> strategy4 d = Some u ->
        logoUrl d = Some u)
  /\ (strategy1 d = None -> strategy2 d = None -> strategy3 d = None ->
      strategy4 d = None -> logoUrl d = None).
Proof.
  unfold logoUrl. cbn [assign].
  replace (assign None (strategy1 d)) with (strategy1 d)
    by (destruct (strategy1 d); reflexivity).
  repeat split.
  - intros u E Hu. rewrite E, !unless_set_kept by assumption. reflexivity.
  - intros u H1 E2. pose proof (strategy2_truthy d u E2) as T.
    apply truthy_nonempty in T.
    rewrite E2, (unless_set_unset _ _ H1). cbn [assign].
    rewrite !unless_set_kept by assumption. reflexivity.
  - intros u H1 E2 E3 Hu.
    rewrite E2, E3, (unless_set_unset _ _ H1). cbn [assign].
    replace (assign (strategy1 d) None) with (strategy1 d) by reflexivity.
    rewrite (unless_set_unset _ _ H1). cbn [assign].
    rewrite unless_set_kept by assumption. reflexivity.
  - intros u H1 E2 H3 E4.
    rewrite E2, E4, (unless_set_unset _ _ H1). cbn [assign].
    rewrite (unless_set_unset _ _ H1).
    rewrite (unless_set_unset _ _ (assign_unset _ _ H1 H3)). reflexivity.
  - intros E1 E2 E3 E4. rewrite E1, E2, E3, E4. reflexivity.
Qed.

(** C5: the header image is found by strategy 1, its locator is the empty
    string, and the social-preview locator of strategy 3 replaces it. *)
Lemma lazy_logo_overridden :
  option_map path (logoImg LogoPages.lazy_logo) = Some [0; 0; 1]%nat
  /\ strategy1 LogoPages.lazy_logo = Some EmptyString
  /\ strategy3 LogoPages.lazy_logo = Some "https://example.com/og.png"
  /\ logoUrl LogoPages.lazy_logo = Some "https://example.com/og.png"
  /\ logoUrl LogoPages.lazy_logo <> strategy1 LogoPages.lazy_logo.
Proof. repeat split; try reflexivity. discriminate. Qed.

End Logo.

(** [logo_resolution], one page for each of its five cases. *)
Lemma logo_resolution_witness :
  PageScript.logoUrl LogoPages.every_strategy = Some "https://example.com/brand.png"
  /\ PageScript.logoUrl LogoPages.home_svg
     = Some "data:image/svg+xml;base64,PHN2Zz48L3N2Zz4="
  /\ PageScript.logoUrl LogoPages.og_only = Some "https://example.com/og.png"
  /\ PageScript.logoUrl LogoPages.icon_only = Some "https://example.com/icon.png"
  /\ PageScript.logoUrl LogoPages.bare = None.
Proof.
  split; [ | split; [ | split; [ | split]]].
  - refine (proj1 (logo_resolution LogoPages.every_strategy) _ eq_refl _).
    discriminate.
  - exact (proj1 (proj2 (logo_resolution LogoPages.home_svg)) _ eq_refl eq_refl).
  - refine (proj1 (proj2 (proj2 (logo_resolution LogoPages.og_only)))
              _ eq_refl eq_refl eq_refl _).
    discriminate.
  - exact (proj1 (proj2 (proj2 (proj2 (logo_resolution LogoPages.icon_only))))
             _ eq_refl eq_refl eq_refl eq_refl).
  - exact (proj2 (proj2 (proj2 (proj2 (logo_resolution LogoPages.bare))))
             eq_refl eq_refl eq_refl eq_refl).
Defined.

(** ** Typography and the content digest *)

Section Text.

Import PageScript.

Lemma splitOn_first (sep : ascii) (s : string) :
  exists first rest,
    s = (first ++ rest)%string
    /\ ~ InStr sep first
    /\ (rest = EmptyString \/ exists r, rest = String sep r)
    /\ nth0 (splitOn sep s) = Some first.
Proof.
  induction s as [ | c s IH].
  - exists EmptyString, EmptyString. cbn. intuition.
  - cbn [splitOn]. destruct (Ascii.eqb_spec c sep) as [-> | Hne].
    + exists EmptyString, (String sep s). cbn. intuition eauto.
    + destruct IH as [first [rest [E [Hnot [Hrest Hnth]]]]].
      exists (String c first), rest. repeat split.
      * cbn. rewrite <- E. reflexivity.
      * cbn. intros [H | H]; [congruence | contradiction].
      * exact Hrest.
      * destruct (splitOn sep s) as [ | w ws]; [discriminate Hnth | ].
        cbn in *. inversion Hnth. reflexivity.
Qed.

Lemma firstFont_identifier (stack : string) :
  font_identifier stack (firstFont stack).
Proof.
  destruct (splitOn_first ","%char stack) as [first [rest [E [Hnot [Hrest Hnth]]]]].
  exists first, rest. unfold firstFont. rewrite Hnth. auto.
Qed.

Lemma filter_chars_clean (f : ascii -> bool) (s : string) (c : ascii) :
  InStr c (filter_chars f s) -> f c = true.
Proof.
  induction s as [ | a s IH]; cbn; [contradiction | ].
  destruct (f a) eqn:F; [ | exact IH].
  cbn. intros [<- | H]; auto.
Qed.

Lemma first_named_none (t : string) (d : Document) :
  (forall n, In n (nodes d) -> localName (element n) <> t) ->
  first_named t d = None.
Proof.
  unfold first_named. induction (nodes d) as [ | n l IH]; intros H; [reflexivity | ].
  cbn. destruct (String.eqb_spec (localName (element n)) t) as [E | _].
  - exfalso. apply (H n); [left; reflexivity | exact E].
  - apply IH. intros m Hm. apply H. right. exact Hm.
Qed.

Lemma extract_body (d : Document) (data : Data) :
  extract d = Some data ->
  exists b, body d = Some b
    /\ data = {| colors := {| primary := primaryColor d;
                              background := rgbToHex (backgroundColor (styleOf b));
                              palette := sortedColors d |};
                 typography := {| headings := headingFn d b; body_font := bodyFn b |};
                 logo := logoUrl d;
                 data_rawText := rawText d b |}.
Proof.
  unfold extract. destruct (body d) as [b | ]; [ | discriminate].
  intros E. inversion E. eauto.
Qed.

(** C8.  On every page the script returns from: the body identifier is
    the identifier of the body's computed font stack (the text before its
    first comma, quote characters removed, so that it holds no quote); the
    heading identifier is that of the first [h1] when there is one; and on
    a tree with no [h1] element the heading identifier is the body's. *)
Theorem typography_resolver (d : Document) (data : Data) :
  extract d = Some data ->
  exists b, body d = Some b
    /\ font_identifier (fontFamily (styleOf b)) (body_font (typography data))
    /\ (forall c, InStr c (body_font (typography data)) -> is_quote c = false)
    /\ (forall h, first_named "h1" d = Some h ->
          font_identifier (fontFamily (styleOf h)) (headings (typography data)))
    /\ ((forall n, In n (nodes d) -> localName (element n) <> "h1") ->
        headings (typography data) = body_font (typography data)).
Proof.
  intros E. apply extract_body in E. destruct E as [b [Hb ->]].
  exists b. cbn [typography body_font headings].
  split; [exact Hb | ]. split; [apply firstFont_identifier | ].
  split; [ | split].
  - intros c Hc. unfold bodyFn, firstFont in Hc.
    apply filter_chars_clean in Hc. apply negb_true_iff in Hc. exact Hc.
  - intros h Hh. unfold headingFn, h1, sel_h1.
    rewrite querySelector_tag, Hh. apply firstFont_identifier.
  - intros Hno. unfold headingFn, h1, sel_h1.
    rewrite querySelector_tag, (first_named_none _ _ Hno). reflexivity.
Qed.

Lemma slice0_length (n : nat) (s : string) :
  String.length (slice0 n s) = Nat.min n (String.length s).
Proof.
  revert s. induction n as [ | n IH]; intros s; [reflexivity | ].
  destruct s as [ | c s]; [reflexivity | ].
  cbn. rewrite IH. reflexivity.
Qed.

Lemma slice0_prefix (n : nat) (s : string) :
  exists rest, s = (slice0 n s ++ rest)%string.
Proof.
  revert s. induction n as [ | n IH]; intros s.
  - exists s. reflexivity.
  - destruct s as [ | c s].
    + exists EmptyString. reflexivity.
    + destruct (IH s) as [rest E]. exists rest. cbn. rewrite <- E. reflexivity.
Qed.

(** C9.  On every page the script returns from, [rawText] is the heading
    line, the description line and the content line, each after its
    label, where the heading is the visible text of the first [h1] or
    empty when the tree has none, the description is the content of the
    description metadata or empty when there is none, and the excerpt is
    the first 500 characters of the body's visible text (all of it when
    it is shorter). *)
Theorem content_digest (d : Document) (data : Data) :
  extract d = Some data ->
  exists b heading description excerpt,
    body d = Some b
    /\ data_rawText data
       = (label_heading ++ heading ++ newline
          ++ label_description ++ description ++ newline
          ++ label_content ++ excerpt)%string
    /\ (forall h, first_named "h1" d = Some h -> heading = innerText (element h))
    /\ ((forall n, In n (nodes d) -> localName (element n) <> "h1") ->
        heading = EmptyString)
    /\ (forall m, querySelector d sel_description = Some m ->
          description = content (element m))
    /\ (querySelector d sel_description = None -> description = EmptyString)
    /\ (exists rest, innerText (element b) = (excerpt ++ rest)%string)
    /\ String.length excerpt = Nat.min 500 (String.length (innerText (element b)))
    /\ (String.length excerpt <= 500)%nat.
Proof.
  intros E. apply extract_body in E. destruct E as [b [Hb ->]].
  exists b, (heroText d), (metaDesc d), (bodyText b).
  cbn [data_rawText]. split; [exact Hb | ]. split; [reflexivity | ].
  repeat split.
  - intros h Hh. unfold heroText, h1, sel_h1. rewrite querySelector_tag, Hh.
    reflexivity.
  - intros Hno. unfold heroText, h1, sel_h1.
    rewrite querySelector_tag, (first_named_none _ _ Hno). reflexivity.
  - intros m Hm. unfold metaDesc. rewrite Hm. unfold truthy.
    destruct (String.eqb_spec (content (element m)) "") as [-> | _]; reflexivity.
  - intros Hm. unfold metaDesc. rewrite Hm. reflexivity.
  - apply slice0_prefix.
  - apply slice0_length.
  - unfold bodyText. rewrite slice0_length. apply Nat.le_min_l.
Qed.

End Text.

Example no_heading_typography :
  option_map PageScript.typography (PageScript.extract TextPages.no_heading)
  = Some {| PageScript.headings := "Helvetica Neue";
            PageScript.body_font := "Helvetica Neue" |}.
Proof. reflexivity. Qed.

Example article_typography :
  option_map PageScript.typography (PageScript.extract TextPages.article)
  = Some {| PageScript.headings := "Playfair Display";
            PageScript.body_font := "Arial" |}.
Proof. reflexivity. Qed.

Example article_rawText :
  option_map PageScript.data_rawText (PageScript.extract TextPages.article)
  = Some ("Heading: Type matters" ++ PageScript.newline
          ++ "Description: All about type." ++ PageScript.newline
          ++ "Content: Type matters. Read on.")%string.
Proof. reflexivity. Qed.

Lemma typography_resolver_witness :
  exists data,
    PageScript.extract TextPages.no_heading = Some data
    /\ PageScript.headings (PageScript.typography data)
       = PageScript.body_font (PageScript.typography data).
Proof.
  eexists. split; [reflexivity | ].
  destruct (typography_resolver TextPages.no_heading _ eq_refl)
    as [b [_ [_ [_ [_ H]]]]].
  apply H. intros n Hin. vm_compute in Hin.
  repeat (destruct Hin as [<- | Hin]; [cbn; discriminate | ]).
  contradiction.
Defined.

Lemma content_digest_witness :
  exists data b heading description excerpt,
    PageScript.extract TextPages.article = Some data
    /\ body TextPages.article = Some b
    /\ PageScript.data_rawText data
       = (label_heading ++ heading ++ PageScript.newline
          ++ label_description ++ description ++ PageScript.newline
          ++ label_content ++ excerpt)%string
    /\ (String.length excerpt <= 500)%nat.
Proof.
  eexists.
  destruct (content_digest TextPages.article _ eq_refl)
    as [b [heading [description [excerpt [Hb [Hraw [_ [_ [_ [_ [_ [_ Hlen]]]]]]]]]]]].
  exists b, heading, description, excerpt.
  split; [reflexivity | ]. split; [exact Hb | ]. split; [exact Hraw | exact Hlen].
Defined.

(** ** The classifier stage *)

Section Classifier.

Import PageScript Server.

Lemma vibeAnalysis_run (w : World) (rawText : string) (s : State) :
  vibeAnalysis w rawText s
  = (completion (vibeValue w rawText),
     {| trace := trace s ++ vibeCalls w rawText; browser := browser s |}).
Proof.
  destruct s as [t br].
  unfold vibeAnalysis, vibeValue, vibeCalls, selected, try_catch.
  destruct (present (GOOGLE_API_KEY w)).
  - unfold viaGemini, outcome, bind, call, returning, promptFor. cbn [trace browser].
    destruct (importModule w Gemini) as [[] | [n | e]]; [ | reflexivity | reflexivity].
    destruct (generateContent w _ _) as [text | [n | e]]; cbn [trace browser].
    + destruct (JSON_parse w (clean text)) as [j | e];
        cbn [parseOutcome completion];
        unfold ret; rewrite <- app_assoc; reflexivity.
    + unfold raise. cbn [caught completion]. rewrite <- app_assoc. reflexivity.
    + unfold ret. cbn [caught completion]. rewrite <- app_assoc. reflexivity.
  - destruct (present (OPENAI_API_KEY w)).
    + unfold viaOpenAI, outcome, bind, call, returning, promptFor. cbn [trace browser].
      destruct (importModule w OpenAI) as [[] | [n | e]]; [ | reflexivity | reflexivity].
      destruct (createCompletion w _ _ _) as [[c | ] | [n | e]]; cbn [trace browser].
      * destruct (JSON_parse w c) as [j | e]; cbn [parseOutcome completion];
          unfold ret; rewrite <- app_assoc; reflexivity.
      * destruct (JSON_parse w "null") as [j | e]; cbn [parseOutcome completion];
          unfold ret; rewrite <- app_assoc; reflexivity.
      * unfold raise. cbn [caught completion]. rewrite <- app_assoc. reflexivity.
      * unfold ret. cbn [caught completion]. rewrite <- app_assoc. reflexivity.
    + unfold ret. cbn [trace browser completion]. rewrite app_nil_r. reflexivity.
Qed.

(** *** The calls of one request *)

Lemma run_calls (w : World) (req : Request) :
  run w req
  = if js_truthy (url req)
    then renderCalls w req ++ answer w req ++ release w
    else [Respond 400 (ErrorBody "URL is required" None)].
Proof.
  unfold run, analyze, renderCalls, answer, release, render.
  destruct (js_truthy (url req)); [ | reflexivity].
  cbn [negb].
  unfold runScript.
  unfold try_finally, try_catch, bind, call, emit, set_browser, get_browser,
    returning, ret, raise, initial.
  cbn [trace browser app].
  destruct (launch w) as [[] | e]; cbn [trace browser app snd completion];
    [ | reflexivity].
  destruct (newPage w) as [[] | e]; cbn [trace browser app snd completion];
    [ | destruct (close w); reflexivity].
  destruct (setUserAgent w) as [[] | e]; cbn [trace browser app snd completion];
    [ | destruct (close w); reflexivity].
  destruct (goto w (url req)) as [[] | e]; cbn [trace browser app snd completion];
    [ | destruct (close w); reflexivity].
  destruct (evaluate w) as [d | e]; cbn [trace browser app snd completion];
    [ | destruct (close w); reflexivity].
  destruct (extract d) as [data | ]; cbn [trace browser app snd completion];
    [ | destruct (close w); reflexivity].
  rewrite vibeAnalysis_run.
  destruct (vibeValue w (data_rawText data)) as [vibe | e];
    cbn [trace browser app snd completion];
    destruct (close w); cbn [trace browser app snd completion];
    rewrite <- !app_assoc; reflexivity.
Qed.

End Classifier.

(** ** The request: classifier boundary, backend selection, the browser *)

Section Request.

Import PageScript Server.





Lemma renderCalls_no_backend (w : World) (req : Request) :
  filter isBackendEvent (renderCalls w req) = []
  /\ filter isInvocation (renderCalls w req) = [].
Proof.
  unfold renderCalls.
  destruct (launch w), (newPage w), (setUserAgent w), (goto w (url req));
    split; reflexivity.
Qed.










End Request.

(** ** Requests in concrete worlds *)

Example array_reply_run :
  List.map (fun ev => match ev with
                      | Server.Respond st (Server.Payload _ v) => Some (st, v)
                      | _ => None
                      end) (Server.run Worlds.array_reply Worlds.request)
  = [None; None; None; None; None; None; None;
     Some (200, Server.JArr []); None].
Proof. vm_compute. reflexivity. Qed.

Example load_fails_run :
  Server.run Worlds.load_fails Worlds.request
  = [Server.CallLaunch; Server.CallNewPage; Server.CallSetUserAgent;
     Server.CallGoto (Some (Server.JStr "https://example.com"));
     Server.Respond 500
       (Server.ErrorBody "Failed to analyze URL"
          (Some "Navigation timeout of 60000 ms exceeded"));
     Server.CallClose].
Proof. reflexivity. Qed.

(** The first backend rejects with [undefined]: the calls of the
    request. *)
Example rejects_undefined_run :
  List.map (fun ev => match ev with
                      | Server.Respond st (Server.ErrorBody e d) => Some (st, e, d)
                      | _ => None
                      end) (Server.run Worlds.rejects_undefined Worlds.request)
  = [None; None; None; None; None; None; None;
     Some (500, "Failed to analyze URL",
           Some "Cannot read properties of undefined (reading 'message')");
     None].
Proof. vm_compute. reflexivity. Qed.





(** ** More on the colour counts *)

Section Palette.

Import PageScript.

Lemma accepted_rgbToHex (c h : string) : accepted c = Some h -> rgbToHex c = Some h.
Proof.
  unfold accepted. destruct (rgbToHex c) as [x | ]; [ | discriminate].
  destruct (negb (String.eqb x "") && negb (rejected x)); [ | discriminate].
  intros E. exact E.
Qed.

Lemma startsWith_hash_cons (t : string) : startsWith "#" (String "#" t) = true.
Proof.
  unfold startsWith. cbn [String.prefix].
  destruct (Ascii.ascii_dec "#" "#") as [_ | N]; [ | contradiction].
  destruct t; reflexivity.
Qed.

Lemma rgbToHex_hash (c h : string) :
  rgbToHex c = Some h -> startsWith "#" h = true.
Proof.
  unfold rgbToHex. destruct (String.eqb c ""); [intros E; discriminate E | ].
  destruct (startsWith "#" c) eqn:H.
  - intros E. injection E as <-. exact H.
  - destruct (match_digits c) as [l | ]; [ | intros E; discriminate E].
    destruct l as [ | r0 l]; [intros E; discriminate E | ].
    destruct l as [ | r1 l]; [intros E; discriminate E | ].
    destruct l as [ | r2 l]; [intros E; discriminate E | ].
    match goal with |- Some (String _ ?x) = _ -> _ => generalize x end.
    intros x E. injection E as <-. apply startsWith_hash_cons.
Qed.

Lemma count_keys (obs : list Observation) (cc : ColorCounts) (k : string) :
  In k (keys (fold_left count obs cc))
  <-> In k (keys cc)
      \/ exists o, In o obs /\ accepted (colorText o) = Some k.
Proof.
  revert cc. induction obs as [ | o obs IH]; intros cc; cbn [fold_left].
  - split; [auto | ]. intros [H | [o [[] _]]]. exact H.
  - rewrite IH. unfold count, addColor.
    destruct (accepted (colorText o)) as [h | ] eqn:E.
    + rewrite bump_keys_in. split.
      * intros [[-> | H] | [o' [Hin Ho']]]; [right | left | right];
          [exists o; split; [left; reflexivity | exact E]
          | exact H
          | exists o'; split; [right; exact Hin | exact Ho']].
      * intros [H | [o' [[<- | Hin] Ho']]].
        -- left. right. exact H.
        -- left. left. congruence.
        -- right. exists o'. auto.
    + split.
      * intros [H | [o' [Hin Ho']]]; [left; exact H | ].
        right. exists o'. split; [right; exact Hin | exact Ho'].
      * intros [H | [o' [[<- | Hin] Ho']]]; [left; exact H | congruence | ].
        right. exists o'. auto.
Qed.

Lemma bump_absent (h : string) (w : Z) (cc : ColorCounts) :
  ~ In h (keys cc) -> bump h w cc = cc ++ [(h, w)].
Proof.
  induction cc as [ | [k v] cc IH]; cbn; intros H; [reflexivity | ].
  destruct (String.eqb_spec k h) as [-> | _]; [exfalso; auto | ].
  rewrite IH by auto. reflexivity.
Qed.

Lemma bump_present (h : string) (w : Z) (cc : ColorCounts) :
  In h (keys cc) -> keys (bump h w cc) = keys cc.
Proof.
  induction cc as [ | [k v] cc IH]; cbn; intros H; [contradiction | ].
  destruct (String.eqb_spec k h) as [-> | Hne]; [reflexivity | ].
  cbn. f_equal. apply IH. destruct H as [H | H]; [contradiction | exact H].
Qed.

(** X3.  One call of [addColor]: the weight goes to the key of the colour
    and to no other; a colour that does not convert or is rejected
    changes nothing; a colour counted before keeps its place among the
    keys; a new colour is appended after all the others with the weight
    of the call. *)
Theorem addColor_step (cc : ColorCounts) (c : string) (w : Z) :
  (forall k, weight_of k (addColor cc c w) = weight_of k cc + share k c w)
  /\ (accepted c = None -> addColor cc c w = cc)
  /\ (forall h, accepted c = Some h -> In h (keys cc) ->
        keys (addColor cc c w) = keys cc)
  /\ (forall h, accepted c = Some h -> ~ In h (keys cc) ->
        addColor cc c w = cc ++ [(h, w)]).
Proof.
  unfold addColor, share. repeat split.
  - intros k. destruct (accepted c) as [h | ]; [apply weight_of_bump | lia].
  - intros ->. reflexivity.
  - intros h -> Hin. apply bump_present. exact Hin.
  - intros h -> Hout. apply bump_absent. exact Hout.
Qed.

Lemma total_perm (k : string) (l1 l2 : list Observation) :
  Permutation l1 l2 -> total k l1 = total k l2.
Proof.
  intros P. induction P as [ | x l l' _ IH | x y l | l l' l'' _ IH1 _ IH2].
  - reflexivity.
  - unfold total in *. cbn. rewrite IH. reflexivity.
  - unfold total. cbn. lia.
  - congruence.
Qed.

(** X4.  The accumulated weights and the set of counted colours do not
    depend on the order in which the sources are read: counting a
    permutation of the same calls gives every colour the same weight and
    counts the same colours (only their order of first appearance, which
    breaks ties, can differ). *)
Theorem weights_order_independent (obs1 obs2 : list Observation) :
  Permutation obs1 obs2 ->
  forall k,
    weight_of k (fold_left count obs1 []) = weight_of k (fold_left count obs2 [])
    /\ (In k (keys (fold_left count obs1 [])) <-> In k (keys (fold_left count obs2 []))).
Proof.
  intros P k. split.
  - rewrite !weight_of_count, (total_perm k _ _ P). reflexivity.
  - rewrite !count_keys. split; intros [H | [o [Hin Ho]]]; try (left; exact H);
      right; exists o; split; try exact Ho.
    + apply (Permutation_in _ P). exact Hin.
    + apply (Permutation_in _ (Permutation_sym P)). exact Hin.
Qed.

Lemma observation_weight (d : Document) (o : Observation) :
  In o (observations d) -> 3 <= weight o.
Proof.
  unfold observations. intros H.
  apply in_app_or in H. destruct H as [H | H].
  - apply theme_observation in H. lia.
  - apply in_app_or in H. destruct H as [H | H].
    + apply header_observation in H. lia.
    + apply document_observation in H. lia.
Qed.

Lemma count_weights (obs : list Observation) (cc : ColorCounts) :
  Forall (fun o => 3 <= weight o) obs ->
  Forall (fun kv => 3 <= snd kv) cc ->
  Forall (fun kv => 3 <= snd kv) (fold_left count obs cc).
Proof.
  revert cc. induction obs as [ | o obs IH]; intros cc Hobs Hcc; cbn [fold_left].
  - exact Hcc.
  - inversion Hobs as [ | ? ? Ho Hrest]; subst.
    apply IH; [exact Hrest | ].
    unfold count, addColor. destruct (accepted (colorText o)) as [h | ]; [ | exact Hcc].
    clear IH Hobs Hrest. induction cc as [ | [k v] cc IHc]; cbn.
    + constructor; [exact Ho | constructor].
    + inversion Hcc as [ | ? ? Hv Hcc']; subst. cbn in Hv.
      destruct (String.eqb k h).
      * constructor; [ | exact Hcc']. cbn. destruct (Z.eqb_spec v 0); lia.
      * constructor; [exact Hv | apply IHc; exact Hcc'].
Qed.

(** X5.  Every counted colour has an accumulated weight of at least 3,
    the smallest weight of the table; no key is ever stored with a zero
    or negative weight. *)
Theorem counted_weights_positive (d : Document) :
  Forall (fun kv => 3 <= snd kv) (colorCounts d).
Proof.
  unfold colorCounts. apply count_weights; [ | constructor].
  apply Forall_forall. intros o Ho. apply (observation_weight d o Ho).
Qed.

Lemma entry_is_key (d : Document) (e : string) :
  In e (sortedColors d) -> In e (keys (colorCounts d)).
Proof.
  rewrite sortedColors_keys. intros H. apply firstn_incl in H.
  apply (Permutation_in _ (sorted_keys_perm _)) in H. exact H.
Qed.

Lemma key_observed (d : Document) (k : string) :
  In k (keys (colorCounts d))
  <-> exists o, In o (observations d) /\ accepted (colorText o) = Some k.
Proof.
  unfold colorCounts. rewrite count_keys. split.
  - intros [[] | H]. exact H.
  - intros H. right. exact H.
Qed.

(** X6.  Every hex that leaves the colour stage starts with [#]: each
    palette entry, each counted key, the primary colour, and every
    non-null result of the conversion (the background colour among
    them). *)
Theorem colours_hash_prefixed (d : Document) :
  Forall (fun e => startsWith "#" e = true) (sortedColors d)
  /\ Forall (fun e => startsWith "#" e = true) (keys (colorCounts d))
  /\ startsWith "#" (primaryColor d) = true
  /\ (forall c, match rgbToHex c with
                | Some h => startsWith "#" h = true
                | None => True
                end).
Proof.
  assert (K : forall k, In k (keys (colorCounts d)) -> startsWith "#" k = true).
  { intros k Hk. apply key_observed in Hk. destruct Hk as [o [_ Ho]].
    apply accepted_rgbToHex in Ho. apply rgbToHex_hash in Ho. exact Ho. }
  assert (E : forall e, In e (sortedColors d) -> startsWith "#" e = true).
  { intros e He. apply K. apply entry_is_key. exact He. }
  split; [apply Forall_forall; exact E | ].
  split; [apply Forall_forall; exact K | ]. split.
  - unfold primaryColor. destruct (sortedColors d) as [ | h l] eqn:S; [reflexivity | ].
    destruct (String.eqb h ""); [reflexivity | ].
    apply E. left. reflexivity.
  - intros c. destruct (rgbToHex c) as [h | ] eqn:R; [ | exact I].
    apply (rgbToHex_hash c h R).
Qed.

(** X7.  The palette invents nothing and, on a small page, loses nothing:
    every entry is the converted colour of some call of [addColor], and
    when at most eight colours were counted every counted colour is an
    entry. *)
Theorem palette_observed (d : Document) :
  (forall e, In e (sortedColors d) ->
     exists o, In o (observations d) /\ accepted (colorText o) = Some e)
  /\ ((length (colorCounts d) <= 8)%nat ->
      forall o h, In o (observations d) -> accepted (colorText o) = Some h ->
        In h (sortedColors d)).
Proof.
  split.
  - intros e He. apply key_observed. apply entry_is_key. exact He.
  - intros Hlen o h Ho Hh.
    assert (Hk : In h (keys (colorCounts d))) by (apply key_observed; eauto).
    rewrite sortedColors_keys. rewrite firstn_all2.
    + apply (Permutation_in _ (Permutation_sym (sorted_keys_perm _))). exact Hk.
    + unfold keys. rewrite length_map.
      rewrite (Permutation_length (sort_perm (colorCounts d))). exact Hlen.
Qed.

End Palette.

(** ** The palette holds the heaviest colours *)

Section Heaviest.

Import PageScript.

Lemma descending_app (a b : list (string * Z)) :
  descending (a ++ b) ->
  descending a /\ forall x y, In x a -> In y b -> snd y <= snd x.
Proof.
  unfold descending. induction a as [ | z a IH]; cbn; intros H.
  - split; [constructor | intros x y []].
  - inversion H as [ | ? ? Hs Hall]; subst.
    destruct (IH Hs) as [Ha Hab]. rewrite Forall_forall in Hall. split.
    + constructor; [exact Ha | ].
      apply Forall_forall. intros x Hx. apply Hall. apply in_or_app. left. exact Hx.
    + intros x y [<- | Hx] Hy.
      * apply Hall. apply in_or_app. right. exact Hy.
      * apply Hab; assumption.
Qed.

Lemma descending_nth (l : list (string * Z)) :
  descending l ->
  forall i j x y, (i < j)%nat ->
    nth_error l i = Some x -> nth_error l j = Some y -> snd y <= snd x.
Proof.
  unfold descending. induction l as [ | z l IH]; intros H i j x y Hij Hi Hj.
  - destruct i; discriminate Hi.
  - inversion H as [ | ? ? Hs Hall]; subst.
    destruct j as [ | j]; [lia | ]. cbn in Hj.
    destruct i as [ | i]; cbn in Hi.
    + inversion Hi; subst. rewrite Forall_forall in Hall.
      apply Hall. apply (nth_error_In _ _ Hj).
    + apply (IH Hs i j); [lia | assumption | assumption].
Qed.

Lemma ranked_weight (d : Document) (e : string) (v : Z) :
  In (e, v) (sort (colorCounts d)) -> weight_of e (colorCounts d) = v.
Proof.
  intros H. apply weight_of_in.
  - exact (proj1 (colorCounts_invariant d)).
  - apply (Permutation_in _ (sort_perm _)). exact H.
Qed.

(** X8.  The palette is ranked and keeps the heaviest colours: an entry
    never weighs less than a later entry, and a counted colour that did
    not make it into the palette never weighs more than an entry. *)
Theorem palette_heaviest (d : Document) :
  (forall i j e1 e2, (i < j)%nat ->
     nth_error (sortedColors d) i = Some e1 ->
     nth_error (sortedColors d) j = Some e2 ->
     weight_of e2 (colorCounts d) <= weight_of e1 (colorCounts d))
  /\ (forall e k, In e (sortedColors d) ->
        In k (keys (colorCounts d)) -> ~ In k (sortedColors d) ->
        weight_of k (colorCounts d) <= weight_of e (colorCounts d)).
Proof.
  pose proof (sort_descending (colorCounts d)) as Hs.
  rewrite <- (firstn_skipn 8 (sort (colorCounts d))) in Hs.
  apply descending_app in Hs. destruct Hs as [Htop Hcut].
  assert (Hin : forall x, In x (firstn 8 (sort (colorCounts d))) ->
                  weight_of (fst x) (colorCounts d) = snd x).
  { intros [e v] Hx. apply ranked_weight. apply (firstn_incl 8). exact Hx. }
  split.
  - intros i j e1 e2 Hij H1 H2. unfold sortedColors in H1, H2.
    rewrite nth_error_map in H1, H2.
    destruct (nth_error (firstn 8 (sort (colorCounts d))) i) as [x | ] eqn:Ex;
      [ | discriminate].
    destruct (nth_error (firstn 8 (sort (colorCounts d))) j) as [y | ] eqn:Ey;
      [ | discriminate].
    cbn in H1, H2. inversion H1; inversion H2; subst.
    rewrite (Hin x (nth_error_In _ _ Ex)), (Hin y (nth_error_In _ _ Ey)).
    apply (descending_nth _ Htop i j x y Hij Ex Ey).
  - intros e k He Hk Hout. unfold sortedColors in He.
    apply in_map_iff in He. destruct He as [x [<- Hx]].
    apply (Permutation_in _ (Permutation_sym (sorted_keys_perm _))) in Hk.
    unfold keys in Hk. apply in_map_iff in Hk. destruct Hk as [y [<- Hy]].
    rewrite <- (firstn_skipn 8 (sort (colorCounts d))) in Hy.
    apply in_app_or in Hy. destruct Hy as [Hy | Hy].
    + exfalso. apply Hout. unfold sortedColors. apply in_map. exact Hy.
    + rewrite (Hin x Hx).
      assert (Ey : weight_of (fst y) (colorCounts d) = snd y).
      { destruct y as [k v]. apply ranked_weight.
        rewrite <- (firstn_skipn 8 (sort (colorCounts d))).
        apply in_or_app. right. exact Hy. }
      rewrite Ey. apply Hcut; assumption.
Qed.

End Heaviest.

(** [weights_order_independent] on the calls of a page, read backwards. *)
Lemma weights_order_independent_witness :
  weight_of "#112233"
    (fold_left PageScript.count
               (rev (PageScript.observations Pages.theme_and_svg)) [])
  = weight_of "#112233"
      (fold_left PageScript.count (PageScript.observations Pages.theme_and_svg) []).
Proof.
  exact (proj1 (weights_order_independent _ _
                  (Permutation_sym (Permutation_rev _)) "#112233")).
Defined.

(** ** Colours in functional form: which texts share a hex *)

Section ByteColours.

Lemma rgbToHex_bytes (c r0 r1 r2 : string) (rest : list string) :
  startsWith "#" c = false ->
  digit_runs EmptyString c = r0 :: r1 :: r2 :: rest ->
  is_byte (parseInt r0) -> is_byte (parseInt r1) -> is_byte (parseInt r2) ->
  rgbToHex c
  = Some (String "#" (hex2 (parseInt r0) ++ hex2 (parseInt r1)
                        ++ hex2 (parseInt r2))).
Proof.
  intros H Hruns B0 B1 B2.
  unfold rgbToHex. rewrite H. unfold match_digits. rewrite Hruns.
  destruct (String.eqb_spec c "") as [-> | _]; [cbn in Hruns; discriminate Hruns | ].
  unfold is_byte in *.
  change (shl 1 24) with (2 ^ 24).
  rewrite (shl_byte (parseInt r0) 16), (shl_byte (parseInt r1) 8) by lia.
  rewrite hex_of_bytes by assumption.
  reflexivity.
Qed.

Lemma HEX_inj (a b : Z) : 0 <= a < 16 -> 0 <= b < 16 -> HEX a = HEX b -> a = b.
Proof.
  intros Ha Hb.
  assert (Ea : a = 0 \/ a = 1 \/ a = 2 \/ a = 3 \/ a = 4 \/ a = 5 \/ a = 6
               \/ a = 7 \/ a = 8 \/ a = 9 \/ a = 10 \/ a = 11 \/ a = 12
               \/ a = 13 \/ a = 14 \/ a = 15) by lia.
  assert (Eb : b = 0 \/ b = 1 \/ b = 2 \/ b = 3 \/ b = 4 \/ b = 5 \/ b = 6
               \/ b = 7 \/ b = 8 \/ b = 9 \/ b = 10 \/ b = 11 \/ b = 12
               \/ b = 13 \/ b = 14 \/ b = 15) by lia.
  clear Ha Hb.
  repeat (destruct Ea as [-> | Ea]);
    repeat (destruct Eb as [-> | Eb]); subst;
    intros E; first [reflexivity | vm_compute in E; discriminate E].
Qed.

Lemma nibbles (x : Z) : 0 <= x <= 255 -> 0 <= x / 16 < 16 /\ 0 <= x mod 16 < 16.
Proof.
  intros Hx. split.
  - split; [apply Z.div_pos | apply Z.div_lt_upper_bound]; lia.
  - apply Z.mod_pos_bound; lia.
Qed.

Lemma hex_triple_inj (r g b r' g' b' : Z) :
  is_byte r -> is_byte g -> is_byte b -> is_byte r' -> is_byte g' -> is_byte b' ->
  (hex2 r ++ hex2 g ++ hex2 b)%string = (hex2 r' ++ hex2 g' ++ hex2 b')%string ->
  r = r' /\ g = g' /\ b = b'.
Proof.
  unfold is_byte. intros Hr Hg Hb Hr' Hg' Hb'.
  destruct (nibbles r Hr) as [R1 R0]. destruct (nibbles g Hg) as [G1 G0].
  destruct (nibbles b Hb) as [B1 B0]. destruct (nibbles r' Hr') as [R1' R0'].
  destruct (nibbles g' Hg') as [G1' G0']. destruct (nibbles b' Hb') as [B1' B0'].
  pose proof (Z.div_mod r 16 ltac:(lia)) as Er.
  pose proof (Z.div_mod g 16 ltac:(lia)) as Eg.
  pose proof (Z.div_mod b 16 ltac:(lia)) as Eb.
  pose proof (Z.div_mod r' 16 ltac:(lia)) as Er'.
  pose proof (Z.div_mod g' 16 ltac:(lia)) as Eg'.
  pose proof (Z.div_mod b' 16 ltac:(lia)) as Eb'.
  unfold hex2. cbn [append].
  generalize dependent (r / 16). generalize dependent (r mod 16).
  generalize dependent (g / 16). generalize dependent (g mod 16).
  generalize dependent (b / 16). generalize dependent (b mod 16).
  generalize dependent (r' / 16). generalize dependent (r' mod 16).
  generalize dependent (g' / 16). generalize dependent (g' mod 16).
  generalize dependent (b' / 16). generalize dependent (b' mod 16).
  intros.
  match goal with H : String _ _ = String _ _ |- _ => injection H as E1 E2 E3 E4 E5 E6 end.
  apply HEX_inj in E1, E2, E3, E4, E5, E6; try assumption.
  lia.
Qed.

(** X9.  Two colour texts in functional form whose first three numbers
    are at most 255 get the same hex exactly when these three numbers are
    equal: different colours never share a key, and anything after the
    third number (an alpha value) makes no difference. *)
Theorem byte_colours_distinct (c1 c2 a0 a1 a2 b0 b1 b2 : string)
  (ra rb : list string) :
  startsWith "#" c1 = false -> startsWith "#" c2 = false ->
  digit_runs EmptyString c1 = a0 :: a1 :: a2 :: ra ->
  digit_runs EmptyString c2 = b0 :: b1 :: b2 :: rb ->
  is_byte (parseInt a0) -> is_byte (parseInt a1) -> is_byte (parseInt a2) ->
  is_byte (parseInt b0) -> is_byte (parseInt b1) -> is_byte (parseInt b2) ->
  (rgbToHex c1 = rgbToHex c2
   <-> parseInt a0 = parseInt b0 /\ parseInt a1 = parseInt b1
       /\ parseInt a2 = parseInt b2).
Proof.
  intros H1 H2 R1 R2 A0 A1 A2 B0 B1 B2.
  rewrite (rgbToHex_bytes c1 a0 a1 a2 ra H1 R1 A0 A1 A2).
  rewrite (rgbToHex_bytes c2 b0 b1 b2 rb H2 R2 B0 B1 B2).
  generalize dependent (parseInt a0). generalize dependent (parseInt a1).
  generalize dependent (parseInt a2). generalize dependent (parseInt b0).
  generalize dependent (parseInt b1). generalize dependent (parseInt b2).
  intros z2 B2 z1 B1 z0 B0 y2 A2 y1 A1 y0 A0. split.
  - intros E.
    assert (E' : (hex2 y0 ++ hex2 y1 ++ hex2 y2)%string
                 = (hex2 z0 ++ hex2 z1 ++ hex2 z2)%string).
    { generalize dependent (hex2 y0 ++ hex2 y1 ++ hex2 y2)%string.
      generalize dependent (hex2 z0 ++ hex2 z1 ++ hex2 z2)%string.
      intros s t E. injection E as E. exact E. }
    apply hex_triple_inj in E'; assumption.
  - intros [-> [-> ->]]. reflexivity.
Qed.

End ByteColours.

(** [byte_colours_distinct]: a half-transparent and an opaque text of one
    colour share the key; two colours do not. *)
Lemma byte_colours_distinct_witness :
  rgbToHex "rgba(255, 87, 51, 0.5)" = rgbToHex "rgb(255, 87, 51)"
  /\ rgbToHex "rgb(255, 87, 51)" <> rgbToHex "rgb(255, 87, 50)".
Proof.
  split.
  - refine (proj2 (byte_colours_distinct
                     "rgba(255, 87, 51, 0.5)" "rgb(255, 87, 51)"
                     "255" "87" "51" "255" "87" "51" ["0"; "5"] []
                     eq_refl eq_refl eq_refl eq_refl _ _ _ _ _ _) _);
      try (unfold is_byte; vm_compute; split; discriminate).
    repeat split.
  - intros E.
    refine (_ (proj1 (byte_colours_distinct
                     "rgb(255, 87, 51)" "rgb(255, 87, 50)"
                     "255" "87" "51" "255" "87" "50" [] []
                     eq_refl eq_refl eq_refl eq_refl _ _ _ _ _ _) E));
      try (unfold is_byte; vm_compute; split; discriminate).
    intros [_ [_ H]]. vm_compute in H. discriminate H.
Defined.

(** ** Where the logo comes from *)

Section LogoOrigin.

Import PageScript.

(** X10.  The logo reference is null exactly when none of the four
    strategies finds an element, and a reference that is not null is the
    result of one of the four strategies: the resolver invents no
    locator. *)
Theorem logo_origin (d : Document) :
  (logoUrl d = None
   <-> strategy1 d = None /\ strategy2 d = None
       /\ strategy3 d = None /\ strategy4 d = None)
  /\ (forall u, logoUrl d = Some u ->
        strategy1 d = Some u \/ strategy2 d = Some u
        \/ strategy3 d = Some u \/ strategy4 d = Some u).
Proof.
  unfold logoUrl, unless_set, unset, assign, truthy.
  destruct (strategy1 d) as [u1 | ], (strategy2 d) as [u2 | ],
           (strategy3 d) as [u3 | ], (strategy4 d) as [u4 | ];
    repeat match goal with
           | |- context [String.eqb ?x ""] => destruct (String.eqb x ""); cbn [negb]
           end;
    (split; [split; [intros E; try discriminate E; auto
                    | intros [E1 [E2 [E3 E4]]];
                      try discriminate E1; try discriminate E2;
                      try discriminate E3; try discriminate E4; reflexivity]
            | intros u E; first [discriminate E | inversion E; subst; auto]]).
Qed.

End LogoOrigin.

(** ** The font identifier, once more *)

Section FontIdentifier.

Import PageScript.

Lemma splitOn_no_separator (sep : ascii) (s : string) :
  ~ InStr sep s -> splitOn sep s = [s].
Proof.
  induction s as [ | c s IH]; cbn; intros H; [reflexivity | ].
  destruct (Ascii.eqb_spec c sep) as [-> | _]; [exfalso; auto | ].
  rewrite IH by auto. reflexivity.
Qed.

Lemma filter_chars_all (f : ascii -> bool) (s : string) :
  (forall c, InStr c s -> f c = true) -> filter_chars f s = s.
Proof.
  induction s as [ | a s IH]; cbn; intros H; [reflexivity | ].
  rewrite (H a) by auto. rewrite IH by auto. reflexivity.
Qed.

Lemma filter_chars_sub (f : ascii -> bool) (s : string) (c : ascii) :
  InStr c (filter_chars f s) -> InStr c s.
Proof.
  induction s as [ | a s IH]; cbn; [auto | ].
  destruct (f a); cbn; intuition.
Qed.

(** X11.  A font identifier holds no comma and no quote character, and
    taking the identifier of an identifier changes nothing. *)
Theorem firstFont_clean (stack : string) :
  ~ InStr ","%char (firstFont stack)
  /\ (forall c, InStr c (firstFont stack) -> is_quote c = false)
  /\ firstFont (firstFont stack) = firstFont stack.
Proof.
  assert (Hcomma : ~ InStr ","%char (firstFont stack)).
  { destruct (splitOn_first ","%char stack) as [first [rest [_ [Hnot [_ Hnth]]]]].
    unfold firstFont. rewrite Hnth. intros H. apply filter_chars_sub in H. auto. }
  assert (Hquote : forall c, InStr c (firstFont stack) -> is_quote c = false).
  { intros c Hc. unfold firstFont in Hc. apply filter_chars_clean in Hc.
    apply negb_true_iff in Hc. exact Hc. }
  split; [exact Hcomma | ]. split; [exact Hquote | ].
  unfold firstFont at 1.
  rewrite (splitOn_no_separator _ _ Hcomma). cbn [nth0 hd_error].
  apply filter_chars_all. intros c Hc. rewrite (Hquote c Hc). reflexivity.
Qed.

End FontIdentifier.

(** ** Stripping the code fences of a reply *)

Section Fences.

Import Server.

Lemma prefix_cons (a c : ascii) (p s : string) :
  String.prefix (String a p) (String c s) = Ascii.eqb c a && String.prefix p s.
Proof.
  cbn [String.prefix].
  destruct (Ascii.ascii_dec a c) as [E | N], (Ascii.eqb_spec c a) as [E' | N'];
    try reflexivity; congruence.
Qed.

Lemma prefix_nil (p : string) :
  String.prefix p EmptyString = true -> p = EmptyString.
Proof. destruct p; [reflexivity | discriminate]. Qed.

Lemma prefix_fence (s : string) :
  String.prefix fence s = true <-> (3 <= leading backtick s)%nat.
Proof.
  change fence with (String backtick (String backtick (String backtick EmptyString))).
  destruct s as [ | c1 s]; [cbn; split; [discriminate | lia] | ].
  rewrite prefix_cons. cbn [leading].
  destruct (Ascii.eqb c1 backtick); [ | cbn; split; [discriminate | lia]].
  destruct s as [ | c2 s]; [cbn; split; [discriminate | lia] | ].
  rewrite prefix_cons. cbn [leading].
  destruct (Ascii.eqb c2 backtick); [ | cbn; split; [discriminate | lia]].
  destruct s as [ | c3 s]; [cbn; split; [discriminate | lia] | ].
  rewrite prefix_cons. cbn [leading].
  destruct (Ascii.eqb c3 backtick); cbn; split; try discriminate; try lia.
  intros _. destruct s; reflexivity.
Qed.

Lemma leading_length (a : ascii) (s : string) :
  (leading a s <= String.length s)%nat.
Proof.
  induction s as [ | c s IH]; cbn; [lia | ].
  destruct (Ascii.eqb c a); lia.
Qed.

Lemma drop_length (n : nat) (s : string) :
  String.length (drop n s) = (String.length s - n)%nat.
Proof.
  revert s. induction n as [ | n IH]; intros s; cbn; [lia | ].
  destruct s as [ | c s]; cbn; [reflexivity | apply IH].
Qed.

Lemma drop_leading (a : ascii) (n : nat) (s : string) :
  (n <= leading a s)%nat -> leading a (drop n s) = (leading a s - n)%nat.
Proof.
  revert s. induction n as [ | n IH]; intros s H; cbn; [lia | ].
  destruct s as [ | c s]; cbn in *; [lia | ].
  destruct (Ascii.eqb c a); [apply IH; lia | lia].
Qed.

Lemma includes_tail (p : string) (c : ascii) (s : string) :
  includes p (String c s) = false -> includes p s = false.
Proof. cbn [includes]. intros H. apply orb_false_iff in H. apply H. Qed.

Lemma includes_head (p s : string) :
  includes p s = false -> String.prefix p s = false.
Proof.
  destruct s; cbn [includes]; intros H; apply orb_false_iff in H; apply H.
Qed.

(** After the fences are dropped none is left, also where a fence was
    between back-ticks. *)
Lemma removeAll_fence (fuel : nat) :
  forall s, (String.length s <= fuel)%nat ->
    (leading backtick (removeAll fuel fence s) <= leading backtick s)%nat
    /\ includes fence (removeAll fuel fence s) = false.
Proof.
  induction fuel as [ | fuel IH]; intros s Hlen.
  - destruct s; [ | cbn in Hlen; lia]. cbn. auto.
  - destruct s as [ | c s]; [cbn; auto | ].
    cbn [removeAll].
    destruct (String.prefix fence (String c s)) eqn:P.
    + apply prefix_fence in P.
      change (String.length fence) with 3%nat.
      pose proof (leading_length backtick (String c s)) as Hl.
      destruct (IH (drop 3 (String c s))) as [L I].
      { rewrite drop_length. cbn [String.length] in *. lia. }
      rewrite drop_leading in L by exact P. split; [lia | exact I].
    + cbn [String.length] in Hlen.
      destruct (IH s ltac:(lia)) as [L I].
      assert (Hlead : (leading backtick (String c (removeAll fuel fence s))
                       <= leading backtick (String c s))%nat).
      { cbn [leading]. destruct (Ascii.eqb c backtick); lia. }
      split; [exact Hlead | ].
      cbn [includes]. rewrite I, orb_false_r.
      destruct (String.prefix fence (String c (removeAll fuel fence s))) eqn:Q;
        [ | reflexivity].
      apply prefix_fence in Q.
      assert (N : ~ (3 <= leading backtick (String c s))%nat).
      { intros H. apply prefix_fence in H. congruence. }
      lia.
Qed.

Lemma removeAll_absent (fuel : nat) (p : string) :
  forall s, includes p s = false -> removeAll fuel p s = s.
Proof.
  induction fuel as [ | fuel IH]; intros s H; [reflexivity | ].
  destruct s as [ | c s]; [reflexivity | ].
  cbn [removeAll]. rewrite (includes_head _ _ H).
  rewrite IH by (apply (includes_tail p c); exact H). reflexivity.
Qed.

Lemma prefix_shorter (p q s : string) :
  String.prefix (p ++ q) s = true -> String.prefix p s = true.
Proof.
  revert s. induction p as [ | a p IH]; intros s H.
  - destruct s; reflexivity.
  - destruct s as [ | c s]; [discriminate H | ].
    cbn [append] in H. rewrite prefix_cons in *.
    apply andb_true_iff in H. destruct H as [H1 H2].
    rewrite H1, (IH s H2). reflexivity.
Qed.

Lemma includes_shorter (p q s : string) :
  includes p s = false -> includes (p ++ q) s = false.
Proof.
  induction s as [ | c s IH]; cbn [includes]; intros H;
    apply orb_false_iff in H; destruct H as [H1 H2].
  - rewrite orb_false_r.
    destruct (String.prefix (p ++ q) EmptyString) eqn:E; [ | reflexivity].
    apply prefix_shorter in E. congruence.
  - rewrite (IH H2), orb_false_r.
    destruct (String.prefix (p ++ q) (String c s)) eqn:E; [ | reflexivity].
    apply prefix_shorter in E. congruence.
Qed.

Lemma prefix_app (p x y : string) :
  String.prefix p x = true -> String.prefix p (x ++ y) = true.
Proof.
  revert x. induction p as [ | a p IH]; intros x H.
  - destruct (x ++ y)%string; reflexivity.
  - destruct x as [ | c x]; [discriminate H | ].
    cbn [append]. rewrite prefix_cons in *.
    apply andb_true_iff in H. destruct H as [H1 H2].
    rewrite H1, (IH x H2). reflexivity.
Qed.

Lemma includes_app (p x y : string) :
  includes p (x ++ y) = false -> includes p x = false.
Proof.
  induction x as [ | c x IH]; cbn [append includes]; intros H.
  - rewrite orb_false_r.
    destruct (String.prefix p EmptyString) eqn:E; [ | reflexivity].
    apply prefix_nil in E. subst p. destruct y; cbn in H; discriminate H.
  - apply orb_false_iff in H. destruct H as [H1 H2].
    rewrite (IH H2), orb_false_r.
    destruct (String.prefix p (String c x)) eqn:E; [ | reflexivity].
    apply (prefix_app p (String c x) y) in E. cbn [append] in E. congruence.
Qed.

Lemma trimStart_includes (p s : string) :
  includes p s = false -> includes p (trimStart s) = false.
Proof.
  induction s as [ | c s IH]; intros H; [exact H | ].
  cbn [trimStart]. destruct (is_space c); [ | exact H].
  apply IH. apply (includes_tail p c). exact H.
Qed.

Lemma trimEnd_prefix (s : string) : exists rest, s = (trimEnd s ++ rest)%string.
Proof.
  induction s as [ | c s [rest E]].
  - exists EmptyString. reflexivity.
  - cbn [trimEnd]. destruct (trimEnd s) as [ | d t] eqn:T.
    + destruct (is_space c).
      * exists (String c s). reflexivity.
      * exists s. reflexivity.
    + exists rest. cbn [append] in *. rewrite <- E. reflexivity.
Qed.

Lemma trimEnd_includes (p s : string) :
  includes p s = false -> includes p (trimEnd s) = false.
Proof.
  intros H. destruct (trimEnd_prefix s) as [rest E].
  rewrite E in H. apply includes_app in H. exact H.
Qed.

Lemma trimEnd_cons (c : ascii) (s : string) :
  trimEnd (String c s)
  = match trimEnd s with
    | EmptyString => if is_space c then EmptyString else String c EmptyString
    | t => String c t
    end.
Proof. reflexivity. Qed.

Lemma trimEnd_idempotent (s : string) : trimEnd (trimEnd s) = trimEnd s.
Proof.
  induction s as [ | c s IH]; [reflexivity | ].
  rewrite trimEnd_cons. destruct (trimEnd s) as [ | d t] eqn:T.
  - destruct (is_space c) eqn:Sp; [reflexivity | ].
    rewrite trimEnd_cons. cbn [trimEnd]. rewrite Sp. reflexivity.
  - rewrite trimEnd_cons, IH. reflexivity.
Qed.

Lemma trimStart_fixed (s : string) :
  match s with
  | EmptyString => True
  | String c _ => is_space c = false
  end -> trimStart s = s.
Proof.
  destruct s as [ | c s]; [reflexivity | ].
  intros H. cbn [trimStart]. rewrite H. reflexivity.
Qed.

Lemma trimStart_head (s : string) :
  match trimStart s with
  | EmptyString => True
  | String c _ => is_space c = false
  end.
Proof.
  induction s as [ | c s IH]; [exact I | ].
  cbn [trimStart]. destruct (is_space c) eqn:Sp; [exact IH | exact Sp].
Qed.

Lemma trimEnd_head (s : string) :
  match s with
  | EmptyString => True
  | String c _ => is_space c = false
  end ->
  match trimEnd s with
  | EmptyString => True
  | String c _ => is_space c = false
  end.
Proof.
  destruct s as [ | c s]; [intros _; exact I | ].
  intros H. cbn [trimEnd].
  destruct (trimEnd s); [rewrite H | ]; exact H.
Qed.

Lemma trim_idempotent (s : string) : trim (trim s) = trim s.
Proof.
  unfold trim.
  rewrite (trimStart_fixed (trimEnd (trimStart s)))
    by (apply trimEnd_head; apply trimStart_head).
  apply trimEnd_idempotent.
Qed.

Lemma clean_fixed (t : string) :
  includes fence t = false -> trim t = t -> clean t = t.
Proof.
  intros H T. unfold clean, replaceAllEmpty.
  rewrite (removeAll_absent _ fence_json t)
    by (apply (includes_shorter fence "json"); exact H).
  rewrite (removeAll_absent _ fence t H). exact T.
Qed.

Lemma clean_fence_free (t : string) : includes fence (clean t) = false.
Proof.
  unfold clean, trim, replaceAllEmpty.
  apply trimEnd_includes, trimStart_includes.
  apply removeAll_fence. lia.
Qed.

(** X12.  A reply that holds no code fence and has no white space at its
    ends reaches [JSON.parse] exactly as the backend sent it. *)
Theorem clean_plain (t : string) :
  includes fence t = false -> trim t = t -> clean t = t.
Proof. exact (clean_fixed t). Qed.

(** X13.  Whatever the reply, the text handed to [JSON.parse] holds no
    code fence, and cleaning it once more changes nothing. *)
Theorem clean_idempotent (t : string) :
  includes fence (clean t) = false /\ clean (clean t) = clean t.
Proof.
  split; [apply clean_fence_free | ].
  apply clean_fixed; [apply clean_fence_free | ].
  unfold clean. apply trim_idempotent.
Qed.

End Fences.

(** [clean_plain] on a bare array. *)
Lemma clean_plain_witness : Server.clean "[1, 2]" = "[1, 2]".
Proof. exact (clean_plain "[1, 2]" eq_refl eq_refl). Defined.

(** ** The course of a request *)

Section Course.

Import PageScript Server.









(** X16.  When the page cannot be rendered or the script fails, no
    backend is imported or invoked, whatever credentials are present; nor
    is one when the locator is missing. *)
Theorem failed_rendering_spares_backends (w : World) (req : Request) :
  (forall e, render w req = Throw e -> filter isBackendEvent (run w req) = [])
  /\ (js_truthy (url req) = false -> filter isBackendEvent (run w req) = []).
Proof.
  rewrite run_calls. split.
  - intros e R. destruct (js_truthy (url req)); [ | reflexivity].
    unfold answer. rewrite R. rewrite !filter_app.
    rewrite (proj1 (renderCalls_no_backend w req)).
    unfold release. destruct (launch w); reflexivity.
  - intros ->. reflexivity.
Qed.


End Course.




(** [failed_rendering_spares_backends] with both credentials and a page
    that does not load. *)
Lemma failed_rendering_spares_backends_witness :
  filter isBackendEvent (Server.run Worlds.keys_but_no_page Worlds.request) = [].
Proof.
  exact (proj1 (failed_rendering_spares_backends Worlds.keys_but_no_page
                  Worlds.request) _ eq_refl).
Defined.

(** ** The logo token and letter case *)

Section LogoToken.

Import PageScript.

Lemma map_chars_empty (f : ascii -> ascii) (s : string) :
  String.eqb (map_chars f s) "" = String.eqb s "".
Proof. destruct s; reflexivity. Qed.

(** X18.  Whether a class name, a locator or an alternative text names a
    logo does not depend on letter case: two texts that are equal once
    lower-cased are both taken for a logo or both not. *)
Theorem logo_token_case_insensitive (s1 s2 : string) :
  toLowerCase s1 = toLowerCase s2 -> mentions_logo s1 = mentions_logo s2.
Proof.
  intros E. unfold mentions_logo, truthy. rewrite E. f_equal.
  rewrite <- (map_chars_empty lower_char s1), <- (map_chars_empty lower_char s2).
  unfold toLowerCase in E. rewrite E. reflexivity.
Qed.

End LogoToken.

(** [logo_token_case_insensitive] on two spellings of a class name. *)
Lemma logo_token_case_insensitive_witness :
  PageScript.mentions_logo "Site-LOGO" = PageScript.mentions_logo "site-logo".
Proof. exact (logo_token_case_insensitive "Site-LOGO" "site-logo" eq_refl). Defined.

(** ** A button of the header region is counted twice *)

Section HeaderButtons.

Import PageScript.

Lemma walk_subtree (e : Element) :
  forall p anc h, In h (walk p anc e) ->
    forall n, In n (subtree h) -> In n (walk p anc e).
Proof.
  induction e as [ln at_ st rs rh it oh kids IH] using Element_children_ind.
  intros p anc h Hh n Hn. cbn [walk] in Hh. destruct Hh as [<- | Hh]; [exact Hn | ].
  cbn [walk]. right.
  set (e := mkElement ln at_ st rs rh it oh kids) in *. clearbody e.
  revert Hh. generalize O as i.
  induction kids as [ | c kids IHk]; intros i Hh; [contradiction | ].
  inversion IH as [ | ? ? Hc Hkids]; subst.
  apply in_app_or in Hh. apply in_or_app. destruct Hh as [Hh | Hh].
  - left. apply (Hc _ _ h Hh n Hn).
  - right. apply (IHk Hkids (S i)). exact Hh.
Qed.

Lemma descendants_nodes (d : Document) (h n : Node) :
  In h (nodes d) -> In n (descendants h) -> In n (nodes d).
Proof.
  unfold nodes. destruct (documentElement d) as [r | ]; [ | contradiction].
  intros Hh Hn. apply (walk_subtree r [] [] h Hh).
  unfold descendants in Hn. destruct (subtree h); [contradiction | ].
  right. exact Hn.
Qed.

Lemma querySelector_node (d : Document) (sel : Selector) (n : Node) :
  querySelector d sel = Some n -> In n (nodes d).
Proof.
  unfold querySelector, querySelectorAll. rewrite find_filter.
  intros H. apply find_some in H. apply H.
Qed.

Lemma header_node (d : Document) (h : Node) : header d = Some h -> In h (nodes d).
Proof.
  unfold header. destruct (querySelector d sel_header) as [x | ] eqn:E.
  - intros H. inversion H; subst. apply (querySelector_node _ _ _ E).
  - apply querySelector_node.
Qed.

Lemma hits_nonneg (k : string) (l : list string) : 0 <= hits k l.
Proof.
  induction l as [ | t l IH]; [cbn; lia | ].
  rewrite hits_cons. unfold share.
  destruct (accepted t) as [h | ]; [destruct (String.eqb h k) | ]; lia.
Qed.

Lemma hits_member (k t : string) (l : list string) :
  In t l -> accepted t = Some k -> 1 <= hits k l.
Proof.
  induction l as [ | x l IH]; intros Hin Ha; [contradiction | ].
  rewrite hits_cons. pose proof (hits_nonneg k l) as Hl.
  destruct Hin as [-> | Hin].
  - unfold share. rewrite Ha, String.eqb_refl. lia.
  - specialize (IH Hin Ha). unfold share.
    destruct (accepted x) as [h | ]; [destruct (String.eqb h k) | ]; lia.
Qed.

Lemma weight_by_source (d : Document) (k : string) :
  weight_of k (colorCounts d)
  = 20 * hits k (themeTexts d)
    + (10 * hits k (List.map bgOf (headerButtons d))
       + 5 * hits k (List.map colorOf (filter transparent_bg (headerButtons d))))
    + (8 * hits k (filter painted (List.map fillOf (headerSvgs d)))
       + 8 * hits k (filter painted (List.map strokeOf (headerSvgs d))))
    + 3 * hits k (List.map bgOf (buttons d)).
Proof.
  unfold colorCounts. rewrite weight_of_count. cbn [weight_of].
  unfold observations, headerObservations, documentObservations.
  rewrite !total_app, total_theme, total_buttons, total_svgs, total_document.
  lia.
Qed.

Lemma button_matches (q : bool) (n : Node) :
  localName (element n) = "button" ->
  matches q sel_headerButtons n = true /\ matches q sel_buttons n = true.
Proof.
  intros Htag. unfold sel_headerButtons, sel_buttons, matches.
  cbn [existsb matches_complex matches_compound forallb matches_simple].
  rewrite Htag. split; reflexivity.
Qed.

(** X19.  A [button] element below the header region's element is read
    by the header pass, which counts its background with weight 10, and
    again by the document-wide pass, which counts it with weight 3: the
    hex of its background, when it is counted, weighs at least 13. *)
Theorem header_button_counted_twice (d : Document) (h n : Node) :
  header d = Some h -> In n (descendants h) ->
  localName (element n) = "button" ->
  In n (headerButtons d) /\ In n (buttons d)
  /\ In (mkObservation n (bgOf n) 10) (headerObservations d)
  /\ In (mkObservation n (bgOf n) 3) (documentObservations d)
  /\ forall k, accepted (bgOf n) = Some k -> 13 <= weight_of k (colorCounts d).
Proof.
  intros Eh Hd Htag.
  destruct (button_matches (quirksMode d) n Htag) as [Mh Mb].
  assert (Hn : In n (headerButtons d)).
  { unfold headerButtons. rewrite Eh. unfold querySelectorAllIn.
    apply filter_In. split; [exact Hd | exact Mh]. }
  assert (Hb : In n (buttons d)).
  { unfold buttons, querySelectorAll. apply filter_In. split; [ | exact Mb].
    apply (descendants_nodes d h n (header_node d h Eh) Hd). }
  split; [exact Hn | ]. split; [exact Hb | ]. split; [ | split].
  - unfold headerObservations. apply in_or_app. left.
    apply in_flat_map. exists n. split; [exact Hn | ]. left. reflexivity.
  - unfold documentObservations.
    apply (in_map (fun btn => mkObservation btn (backgroundColor (styleOf btn)) 3)
                  _ _ Hb).
  - intros k Hk. rewrite weight_by_source.
    pose proof (hits_member k (bgOf n) (List.map bgOf (headerButtons d))
                            (in_map bgOf _ _ Hn) Hk) as H10.
    pose proof (hits_member k (bgOf n) (List.map bgOf (buttons d))
                            (in_map bgOf _ _ Hb) Hk) as H3.
    pose proof (hits_nonneg k (themeTexts d)).
    pose proof (hits_nonneg k (List.map colorOf (filter transparent_bg (headerButtons d)))).
    pose proof (hits_nonneg k (filter painted (List.map fillOf (headerSvgs d)))).
    pose proof (hits_nonneg k (filter painted (List.map strokeOf (headerSvgs d)))).
    lia.
Qed.

End HeaderButtons.

(** [header_button_counted_twice] on the page with one header button. *)
Lemma header_button_counted_twice_witness :
  exists h n, PageScript.header Pages.header_button = Some h
              /\ descendants h = [n]
              /\ In n (PageScript.headerButtons Pages.header_button)
              /\ 13 <= weight_of "#FF5733" (PageScript.colorCounts Pages.header_button).
Proof.
  destruct (PageScript.header Pages.header_button) as [h | ] eqn:Eh;
    [ | vm_compute in Eh; discriminate Eh].
  assert (D : exists n, descendants h = [n]
                        /\ localName (element n) = "button"
                        /\ PageScript.accepted (bgOf n) = Some "#FF5733").
  { vm_compute in Eh. injection Eh as <-. eexists.
    split; [vm_compute; reflexivity | ]. split; vm_compute; reflexivity. }
  destruct D as [n [Ed [Htag Hk]]].
  exists h, n. split; [reflexivity | ]. split; [exact Ed | ].
  assert (Hd : In n (descendants h)) by (rewrite Ed; left; reflexivity).
  pose proof (header_button_counted_twice Pages.header_button h n Eh Hd Htag) as T.
  split; [exact (proj1 T) | ].
  exact (proj2 (proj2 (proj2 (proj2 T))) "#FF5733" Hk).
Defined.

(** ** Pages without a region, without colours, without a body *)

Section Degenerate.

Import PageScript Server.

(** X20.  On a page with neither a [header] nor a [nav] element the
    header passes read nothing: every call is the theme colour's or the
    document-wide pass's, and the weight of a hex is 20 for the theme
    colour plus 3 for each button of the document with that background. *)
Theorem no_region (d : Document) :
  (forall n, In n (nodes d) ->
     localName (element n) <> "header" /\ localName (element n) <> "nav") ->
  header d = None
  /\ observations d = themeObservations d ++ documentObservations d
  /\ forall k, weight_of k (colorCounts d)
               = 20 * hits k (themeTexts d) + 3 * hits k (List.map bgOf (buttons d)).
Proof.
  intros Hno.
  assert (Hh : header d = None).
  { unfold header, sel_header, sel_nav. rewrite !querySelector_tag.
    rewrite (first_named_none "header"), (first_named_none "nav");
      [reflexivity | | ]; intros n Hn; apply (Hno n Hn). }
  split; [exact Hh | ]. split.
  - unfold observations, headerObservations, headerButtons, headerSvgs.
    rewrite Hh. reflexivity.
  - intros k. rewrite weight_by_source. unfold headerButtons, headerSvgs.
    rewrite Hh. cbn. lia.
Qed.

Lemma sort_nil (l : list (string * Z)) : sort l = [] -> l = [].
Proof.
  intros H. pose proof (Permutation_length (sort_perm l)) as P.
  rewrite H in P. destruct l; [reflexivity | discriminate P].
Qed.

(** X21.  The palette is empty, and the primary colour the default
    [#000000], exactly when no call of [addColor] counts: every colour
    read off the page is unparsable, white, black or transparent. *)
Theorem empty_palette (d : Document) :
  (sortedColors d = []
   <-> Forall (fun o => accepted (colorText o) = None) (observations d))
  /\ (sortedColors d = [] -> primaryColor d = "#000000").
Proof.
  split.
  - split.
    + intros E. apply Forall_forall. intros o Ho.
      destruct (accepted (colorText o)) as [k | ] eqn:A; [ | reflexivity].
      assert (Hk : In k (keys (colorCounts d))) by (apply key_observed; eauto).
      assert (Hc : colorCounts d = []).
      { apply sort_nil. unfold sortedColors in E.
        destruct (sort (colorCounts d)); [reflexivity | discriminate E]. }
      rewrite Hc in Hk. contradiction.
    + intros H. rewrite Forall_forall in H.
      destruct (sortedColors d) as [ | e l] eqn:E; [reflexivity | ].
      assert (He : In e (sortedColors d)) by (rewrite E; left; reflexivity).
      apply entry_is_key, key_observed in He. destruct He as [o [Ho Ha]].
      rewrite (H o Ho) in Ha. discriminate Ha.
  - intros E. unfold primaryColor. rewrite E. reflexivity.
Qed.


End Degenerate.

(** [no_region] on a page of plain buttons. *)
Lemma no_region_witness :
  PageScript.header Pages.plain_buttons = None
  /\ PageScript.colorCounts Pages.plain_buttons = [("#010203", 20); ("#28323C", 3)].
Proof.
  split; [ | reflexivity].
  refine (proj1 (no_region Pages.plain_buttons _)).
  intros n Hn. vm_compute in Hn.
  repeat (destruct Hn as [<- | Hn]; [split; cbn; discriminate | ]).
  contradiction.
Defined.

